(** * FriendWatch: the session synchronisation core of [server.js]

    A shallow embedding of the room registry, the socket handlers
    ([join-room], [control], [request-sync], [disconnect]) and the room
    creation route of [server.js], followed by the properties of the
    synchronisation protocol.

    Conventions of the embedding.
    - The registry [rooms] is a plain JavaScript object used as a dictionary;
      its own properties are a [gmap string room].  A read [rooms[roomId]]
      also consults [Object.prototype], see [rooms_get].
    - [room.clients] is a JavaScript [Set], which iterates in insertion order:
      a duplicate-free [list string] with [set_add] appending at the end.
    - Connection identifiers ([socket.id]) and room identifiers are strings.
    - Payload fields have the types of the wire contract: [roomId] and
      [action] are strings, [asHost] a boolean, [currentTime] a number.
    - [Date.now()] is an argument of each handler (milliseconds, [Z]).
    - [currentTime] is a JSON number that the server only stores and
      forwards; it is a rational [Q], which covers every finite double.
    - The membership of socket.io's rooms ([socket.join], [io.to(...)]) is
      the field [joined] of the server state. *)

From Stdlib Require Import QArith DecimalString DecimalN.
From stdpp Require Import gmap strings list fin_maps.

Local Open Scope string_scope.
Set Warnings "-clear-no-such-hyp".

(** ** Data model *)

(** [room.state]: [{ playing, currentTime, lastUpdate }]. *)
Record playback := Playback {
  playing : bool;
  currentTime : Q;
  lastUpdate : Z;
}.

(** One entry of [rooms], as built by [app.post('/create')]. *)
Record room := Room {
  videoPath : string;
  artPath : string;
  subtitlePath : option string;
  hostSocketId : option string;   (* [null] is [None] *)
  state : playback;
  clients : list string;          (* a [Set], in insertion order *)
}.

(** The process state: the registry and socket.io's room membership.
    [joined] holds the rooms that [socket.join(roomId)] fills, named by
    registry identifiers.  The private room that socket.io keeps for every
    socket under the socket's own id is not part of it: [io.to(socket.id)]
    is the target [ToSocket].  Registry identifiers are uuids and never
    coincide with a socket id. *)
Record server := Server {
  rooms : gmap string room;
  joined : gmap string (gset string);
}.

(** Where an emission is addressed: [socket.emit] and [io.to(socket.id)]
    reach one connection, [io.to(roomId)] the sockets joined to the room. *)
Inductive target :=
  | ToSocket (socketId : string)
  | ToRoom (roomId : string).

(** The outbound events with their payloads.  In [SyncState] a field that was
    read from an object lacking the property is [undefined], here the outer
    [None]; [hostSocketId: null] is [Some None]. *)
Inductive payload :=
  | RoomError (message : string)
  | Role (role : string)
  | SyncState (st : option playback) (serverTime : Z)
              (host : option (option string))
  | ControlMsg (action : string) (time : Q) (serverTime : Z) (isPlaying : bool).

Inductive emission := Emit (to : target) (p : payload).

(** What a handler does: it returns after mutating the state and emitting
    events, or throws an exception nobody catches. *)
Inductive result :=
  | Ok (st : server) (out : list emission)
  | Uncaught (error : string).

Inductive http_response :=
  | BadRequest (body : string)
  | Redirect (url : string).

(** ** JavaScript primitives used by the handlers *)

(** Truthiness of a string: only the empty string is falsy. *)
Definition truthy (s : string) : bool := negb (String.eqb s "").

(** [!room.hostSocketId]. *)
Definition no_host (h : option string) : bool :=
  match h with
  | None => true
  | Some s => negb (truthy s)
  end.

(** [socket.id === room.hostSocketId]. *)
Definition is_host (socketId : string) (h : option string) : bool :=
  bool_decide (h = Some socketId).

(** [Set.prototype.has], [add] and [delete]; [size] is [length]. *)
Definition set_has (c : list string) (x : string) : bool :=
  bool_decide (x ∈ c).

Definition set_add (c : list string) (x : string) : list string :=
  if set_has c x then c else c ++ [x].

Definition set_delete (c : list string) (x : string) : list string :=
  filter (λ y, y ≠ x) c.

(** [[...room.clients][0] || null]. *)
Definition first_or_null (c : list string) : option string :=
  match head c with
  | Some x => if truthy x then Some x else None
  | None => None
  end.

(** The property names every object literal inherits from
    [Object.prototype]; each of them reads as a truthy value (a function, or
    the prototype object itself for [__proto__]). *)
Definition object_prototype_keys : list string :=
  [ "constructor"; "__defineGetter__"; "__defineSetter__"; "hasOwnProperty";
    "__lookupGetter__"; "__lookupSetter__"; "isPrototypeOf";
    "propertyIsEnumerable"; "toString"; "valueOf"; "__proto__";
    "toLocaleString" ].

(** The value of [rooms[roomId]]. *)
Inductive lookup_result :=
  | Own (r : room)     (* a room stored in the registry *)
  | Proto              (* a member of [Object.prototype]: truthy, not a room *)
  | Missing.           (* [undefined] *)

Definition rooms_get (m : gmap string room) (roomId : string) : lookup_result :=
  match m !! roomId with
  | Some r => Own r
  | None =>
      if bool_decide (roomId ∈ object_prototype_keys) then Proto else Missing
  end.

(** The sockets socket.io has in the room [roomId]. *)
Definition joined_of (st : server) (roomId : string) : gset string :=
  default ∅ (joined st !! roomId).

(** The connections an emission is delivered to. *)
Definition recipients (st : server) (t : target) : gset string :=
  match t with
  | ToSocket s => {[ s ]}
  | ToRoom roomId => joined_of st roomId
  end.

(** ** Room updates *)

Definition with_host (r : room) (h : option string) : room :=
  Room (videoPath r) (artPath r) (subtitlePath r) h (state r) (clients r).

Definition with_clients (r : room) (c : list string) : room :=
  Room (videoPath r) (artPath r) (subtitlePath r) (hostSocketId r) (state r) c.

Definition with_state (r : room) (s : playback) : room :=
  Room (videoPath r) (artPath r) (subtitlePath r) (hostSocketId r) s (clients r).

Definition set_room (st : server) (roomId : string) (r : room) : server :=
  Server (<[roomId := r]> (rooms st)) (joined st).

(** ** [app.post('/create')] *)

(** [roomId] is the value of [uuidv4()]; the file arguments are the base
    names of the uploaded files when present. *)
Definition create (st : server) (roomId : string)
    (videoFile artFile subtitleFile : option string) (now : Z)
    : server * http_response :=
  match videoFile, artFile with
  | Some v, Some a =>
      let r := Room ("/uploads/" ++ v) ("/uploads/" ++ a)
                    (match subtitleFile with
                     | Some s => Some ("/uploads/" ++ s)
                     | None => None
                     end)
                    None (Playback false 0 now) [] in
      (set_room st roomId r, Redirect ("/room/" ++ roomId))
  | _, _ => (st, BadRequest "Video and art are required.")
  end.

(** ** [socket.on('join-room')] *)

(** [socket.join(roomId)]. *)
Definition socket_join (st : server) (socketId roomId : string) : server :=
  Server (rooms st)
         (<[roomId := {[ socketId ]} ∪ joined_of st roomId]> (joined st)).

Definition join_room (st : server) (socketId roomId : string) (asHost : bool)
    (now : Z) : result :=
  match rooms_get (rooms st) roomId with
  | Missing =>
      Ok st [Emit (ToSocket socketId) (RoomError "Room not found.")]
  | Proto =>
      (* [room.clients] is [undefined], reading [.size] throws *)
      Uncaught "TypeError: Cannot read properties of undefined (reading 'size')"
  | Own r =>
      if (2 <=? length (clients r))%nat && negb (set_has (clients r) socketId)
      then Ok st [Emit (ToSocket socketId)
                       (RoomError "Room is full (2 users max).")]
      else
        let st1 := socket_join st socketId roomId in
        let r1 := with_clients r (set_add (clients r) socketId) in
        if asHost || no_host (hostSocketId r1)
        then Ok (set_room st1 roomId (with_host r1 (Some socketId)))
                [Emit (ToSocket socketId) (Role "host")]
        else Ok (set_room st1 roomId r1)
                [Emit (ToSocket socketId) (Role "guest");
                 Emit (ToSocket socketId)
                      (SyncState (Some (state r1)) now
                                 (Some (hostSocketId r1)))]
  end.

(** ** [socket.on('control')] *)

(** The three branches on [action]; any other action leaves the state. *)
Definition apply_action (s : playback) (action : string) (time : Q) (now : Z)
    : playback :=
  if String.eqb action "play" then Playback true time now
  else if String.eqb action "pause" then Playback false time now
  else if String.eqb action "seek" then Playback (playing s) time now
  else s.

Definition control (st : server) (socketId roomId action : string)
    (time : Q) (now : Z) : result :=
  match rooms_get (rooms st) roomId with
  | Missing => Ok st []
  | Proto =>
      (* [room.hostSocketId] is [undefined], never equal to [socket.id] *)
      Ok st []
  | Own r =>
      if negb (is_host socketId (hostSocketId r)) then Ok st []
      else
        let s := apply_action (state r) action time now in
        Ok (set_room st roomId (with_state r s))
           [Emit (ToRoom roomId) (ControlMsg action time now (playing s))]
  end.

(** ** [socket.on('request-sync')] *)

Definition request_sync (st : server) (socketId roomId : string) (now : Z)
    : result :=
  match rooms_get (rooms st) roomId with
  | Missing => Ok st []
  | Proto =>
      (* [room.state] and [room.hostSocketId] are [undefined] *)
      Ok st [Emit (ToSocket socketId) (SyncState None now None)]
  | Own r =>
      Ok st [Emit (ToSocket socketId)
                  (SyncState (Some (state r)) now (Some (hostSocketId r)))]
  end.

(** ** [socket.on('disconnect')] *)

(** The body of the [forEach]: [None] when the room is deleted. *)
Definition leave_room (socketId : string) (r : room) : option room :=
  if set_has (clients r) socketId then
    let c := set_delete (clients r) socketId in
    let h := if is_host socketId (hostSocketId r)
             then first_or_null c else hostSocketId r in
    if (length c =? 0)%nat then None
    else Some (with_host (with_clients r c) h)
  else Some r.

(** socket.io takes the socket out of all its rooms before the handler
    runs; the handler then visits every entry of [rooms]. *)
Definition leave (st : server) (socketId : string) : server :=
  Server (omap (leave_room socketId) (rooms st))
         ((λ s : gset string, s ∖ {[ socketId ]}) <$> joined st).

Definition disconnect (st : server) (socketId : string) : result :=
  Ok (leave st socketId) [].

(** ** Runs of the server *)

(** The events of a run, each with its payload: a socket event whose
    payload is an object with the fields of the wire contract, or a
    [/create] request whose upload fields the multer middleware has parsed.
    The handlers destructure their argument and [/create] reads
    [req.files], so a socket event sent without a payload object, or a
    [/create] request that is not a multipart form, throws before any of
    the code below runs; such inputs are not values of [event]. *)
Inductive event :=
  | Create (roomId : string) (videoFile artFile subtitleFile : option string)
           (now : Z)
  | JoinRoom (socketId roomId : string) (asHost : bool) (now : Z)
  | Control (socketId roomId action : string) (time : Q) (now : Z)
  | RequestSync (socketId roomId : string) (now : Z)
  | Disconnect (socketId : string).

Definition step (st : server) (e : event) : result :=
  match e with
  | Create roomId v a s now => Ok (fst (create st roomId v a s now)) []
  | JoinRoom socketId roomId asHost now => join_room st socketId roomId asHost now
  | Control socketId roomId action time now =>
      control st socketId roomId action time now
  | RequestSync socketId roomId now => request_sync st socketId roomId now
  | Disconnect socketId => disconnect st socketId
  end.

(** An uncaught exception ends the process, and the run with it. *)
Fixpoint run (st : server) (es : list event) : result :=
  match es with
  | [] => Ok st []
  | e :: es' =>
      match step st e with
      | Ok st' out =>
          match run st' es' with
          | Ok st'' out' => Ok st'' (out ++ out')
          | Uncaught err => Uncaught err
          end
      | Uncaught err => Uncaught err
      end
  end.

(** The state at start-up: [const rooms = {}], nobody connected. *)
Definition init : server := Server ∅ ∅.

(** ** Invariants of the running server *)

(** A room is well formed when [clients] is a set of non-empty connection
    identifiers and the host, if any, is one of them. *)
Definition room_ok (r : room) : Prop :=
  NoDup (clients r) ∧ ("" ∉ clients r) ∧
  (∀ h, hostSocketId r = Some h → h ∈ clients r).

(** The registry holds well-formed rooms under identifiers that are not
    names of [Object.prototype], and socket.io's membership of a room is
    the room's [clients]. *)
Record wf (st : server) : Prop := Wf {
  wf_keys : ∀ roomId r,
    rooms st !! roomId = Some r → roomId ∉ object_prototype_keys;
  wf_room : ∀ roomId r, rooms st !! roomId = Some r → room_ok r;
  wf_joined : ∀ roomId s,
    s ∈ joined_of st roomId ↔
    ∃ r, rooms st !! roomId = Some r ∧ s ∈ clients r;
}.

(** No room has more than two members. *)
Definition bounded (st : server) : Prop :=
  ∀ roomId r, rooms st !! roomId = Some r → (length (clients r) ≤ 2)%nat.

(** What the libraries guarantee about the identifiers they hand out:
    [uuidv4()] returns a fresh identifier that is not a property name of
    [Object.prototype], and socket.io's [socket.id] is never empty. *)
Definition valid_event (st : server) (e : event) : Prop :=
  match e with
  | Create roomId _ _ _ _ =>
      (roomId ∉ object_prototype_keys) ∧ rooms st !! roomId = None
  | JoinRoom socketId _ _ _ => socketId ≠ ""
  | Control socketId _ _ _ _ => socketId ≠ ""
  | RequestSync socketId _ _ => socketId ≠ ""
  | Disconnect socketId => socketId ≠ ""
  end.

Inductive reachable : server → Prop :=
  | reach_init : reachable init
  | reach_step st e st' out :
      reachable st → valid_event st e → step st e = Ok st' out →
      reachable st'.

(** The event is a control that the server applies in state [st]: a
    [play], [pause] or [seek] sent by the host of an existing room; [time]
    is its [currentTime]. *)
Definition applied_control (st : server) (e : event) (time : Q) : Prop :=
  ∃ socketId roomId action now r,
    e = Control socketId roomId action time now ∧
    rooms st !! roomId = Some r ∧ hostSocketId r = Some socketId ∧
    action ∈ ["play"; "pause"; "seek"].

(** Every control that is applied in the course of the run, each judged in
    the state it is handled in, carries a non-negative [currentTime]. *)
Fixpoint applied_times_nonneg (st : server) (es : list event) : Prop :=
  match es with
  | [] => True
  | e :: es' =>
      (∀ time, applied_control st e time → (0 <= time)%Q) ∧
      match step st e with
      | Ok st' _ => applied_times_nonneg st' es'
      | Uncaught _ => True
      end
  end.

(** Every room's stored position is non-negative. *)
Definition nonneg_positions (st : server) : Prop :=
  ∀ roomId r, rooms st !! roomId = Some r → (0 <= currentTime (state r))%Q.

(** A handler result that carries a [room-error] for a connection. *)
Definition signals_error (res : result) (socketId : string) : Prop :=
  ∃ st out message,
    res = Ok st out ∧ Emit (ToSocket socketId) (RoomError message) ∈ out.

(** ** A sample session *)

(** A room created at time 1000, joined by ["H"] as host and then by ["G"]. *)
Definition session : list event :=
  [ Create "room-1" (Some "film.mp4") (Some "cover.png") None 1000;
    JoinRoom "H" "room-1" true 1001;
    JoinRoom "G" "room-1" false 1002 ].

Definition demo_room : room :=
  Room "/uploads/film.mp4" "/uploads/cover.png" None (Some "H")
       (Playback false 0 1000) ["H"; "G"].

Definition demo : server :=
  Server {[ "room-1" := demo_room ]} {[ "room-1" := {[ "H"; "G" ]} ]}.

(** The sample session with a second room, which nobody has joined. *)
Definition two_rooms : server :=
  fst (create demo "room-2" (Some "talk.mp4") (Some "talk.png") None 1500).

(** The same room after ["H"] has left. *)
Definition solo_room : room :=
  Room "/uploads/film.mp4" "/uploads/cover.png" None (Some "G")
       (Playback false 0 1000) ["G"].

Definition solo : server :=
  Server {[ "room-1" := solo_room ]} {[ "room-1" := {[ "G" ]} ]}.

(** The host of the sample session seeks to five seconds before the start. *)
Definition seek_back : list event :=
  session ++ [ Control "H" "room-1" "seek" (-5) 1003 ].

(** The guest of the sample session sends a pause at -1, which is dropped. *)
Definition guest_pause_negative : list event :=
  session ++ [ Control "G" "room-1" "pause" (-1) 1003 ].

(** The host of the sample session starts playback at ten seconds. *)
Definition play_at_ten : list event :=
  session ++ [ Control "H" "room-1" "play" 10 1003 ].

(** ** [app.get('/room/:roomId')] *)

(** What the room route answers: a 404 with a body, or the view [room]
    rendered with the locals [roomId], [videoPath], [artPath] and
    [subtitlePath].  A local read from an object lacking the property is
    [undefined], here [None]; [subtitlePath: null] is [Some None]. *)
Inductive page :=
  | NotFound (body : string)
  | RenderRoom (roomId : string) (video art : option string)
               (subtitle : option (option string)).

Definition room_view (st : server) (roomId : string) : page :=
  match rooms_get (rooms st) roomId with
  | Missing => NotFound "Room not found or expired."
  | Proto => RenderRoom roomId None None None
  | Own r =>
      RenderRoom roomId (Some (videoPath r)) (Some (artPath r))
                 (Some (subtitlePath r))
  end.

(** ** The [filename] callback of the upload storage *)

(** An integer-valued number in a template literal, [`${n}`]: its decimal
    digits. *)
Definition decimal (n : N) : string := NilEmpty.string_of_uint (N.to_uint n).

(** [`${Date.now()}-${Math.round(Math.random() * 1e9)}${ext}`], where [now]
    is the clock reading, [rnd] the rounded random draw (an integer between
    0 and 10^9) and [ext] the value of [path.extname(file.originalname)]. *)
Definition upload_filename (now rnd : N) (ext : string) : string :=
  decimal now ++ "-" ++ decimal rnd ++ ext.

(** [path.extname] returns the empty string or a string that starts with a
    dot. *)
Definition extension (ext : string) : Prop :=
  ext = "" ∨ ∃ rest, ext = "." ++ rest.

Definition is_digit (c : Ascii.ascii) : bool :=
  (48 <=? Ascii.nat_of_ascii c)%nat && (Ascii.nat_of_ascii c <=? 57)%nat.

Fixpoint all_digits (s : string) : bool :=
  match s with
  | EmptyString => true
  | String c s' => is_digit c && all_digits s'
  end.

(** The string is empty or starts with a character that is not a digit. *)
Definition stops_digits (s : string) : Prop :=
  match s with
  | EmptyString => True
  | String c _ => is_digit c = false
  end.

(** ** Further vocabulary for the properties *)

(** The connection an event comes from, the room it names and the clock
    reading it is handled at. *)
Definition event_socket (e : event) : option string :=
  match e with
  | Create _ _ _ _ _ => None
  | JoinRoom socketId _ _ _ => Some socketId
  | Control socketId _ _ _ _ => Some socketId
  | RequestSync socketId _ _ => Some socketId
  | Disconnect socketId => Some socketId
  end.

Definition event_room (e : event) : option string :=
  match e with
  | Create roomId _ _ _ _ => Some roomId
  | JoinRoom _ roomId _ _ => Some roomId
  | Control _ roomId _ _ _ => Some roomId
  | RequestSync _ roomId _ => Some roomId
  | Disconnect _ => None
  end.

Definition event_time (e : event) : option Z :=
  match e with
  | Create _ _ _ _ now => Some now
  | JoinRoom _ _ _ now => Some now
  | Control _ _ _ _ now => Some now
  | RequestSync _ _ now => Some now
  | Disconnect _ => None
  end.

(** No event of the run is handled later than [T]. *)
Definition times_le (T : Z) (es : list event) : Prop :=
  ∀ e now, e ∈ es → event_time e = Some now → (now ≤ T)%Z.

(** Every room with a member has a host. *)
Definition hosted (st : server) : Prop :=
  ∀ roomId r,
    rooms st !! roomId = Some r → clients r ≠ [] → is_Some (hostSocketId r).

(** The connection is a member of no room. *)
Definition stranger (st : server) (socketId : string) : Prop :=
  ∀ roomId r, rooms st !! roomId = Some r → socketId ∉ clients r.

(** * Properties *)

(** Closed decidable facts are settled by evaluation. *)
Ltac by_eval :=
  lazymatch goal with
  | |- ¬ ?P => apply (bool_decide_eq_false_1 P)
  | |- ?P => apply (bool_decide_eq_true_1 P)
  end; vm_compute; reflexivity.

(** ** JavaScript primitives *)

Lemma truthy_nonempty s : s ≠ "" → truthy s = true.
Proof.
  intros Hs. unfold truthy. destruct (String.eqb_spec s ""); [done | done].
Qed.

Lemma set_has_true c x : set_has c x = true ↔ x ∈ c.
Proof. unfold set_has. apply bool_decide_eq_true. Qed.

Lemma set_has_false c x : set_has c x = false ↔ x ∉ c.
Proof. unfold set_has. apply bool_decide_eq_false. Qed.

Lemma elem_of_set_add c x y : y ∈ set_add c x ↔ y = x ∨ y ∈ c.
Proof.
  unfold set_add. destruct (set_has c x) eqn:E.
  - apply set_has_true in E. split; [auto | intros [-> | ?]; done].
  - rewrite elem_of_app, list_elem_of_singleton. tauto.
Qed.

Lemma NoDup_set_add c x : NoDup c → NoDup (set_add c x).
Proof.
  intros Hc. unfold set_add. destruct (set_has c x) eqn:E; [done |].
  apply set_has_false in E. apply NoDup_app. split_and!; [done | | ].
  - intros y Hy ->%list_elem_of_singleton. done.
  - apply NoDup_singleton.
Qed.

Lemma length_set_add c x :
  length (set_add c x) = if set_has c x then length c else S (length c).
Proof.
  unfold set_add. destruct (set_has c x); [done |].
  rewrite length_app. simpl. lia.
Qed.

Lemma elem_of_set_delete c x y : y ∈ set_delete c x ↔ y ∈ c ∧ y ≠ x.
Proof. unfold set_delete. rewrite list_elem_of_filter. tauto. Qed.

Lemma NoDup_set_delete c x : NoDup c → NoDup (set_delete c x).
Proof. apply NoDup_filter. Qed.

Lemma length_set_delete c x : (length (set_delete c x) ≤ length c)%nat.
Proof. apply length_filter. Qed.

Lemma set_delete_absent c x : x ∉ c → set_delete c x = c.
Proof.
  intros Hx. unfold set_delete. induction c as [| y c IH]; [done |].
  apply not_elem_of_cons in Hx as [Hxy Hxc].
  rewrite filter_cons_True by done. by rewrite IH.
Qed.

Lemma first_or_null_elem c x : first_or_null c = Some x → x ∈ c.
Proof.
  unfold first_or_null. destruct c as [| y c]; simpl; [done |].
  destruct (truthy y); [| done]. intros [= ->]. apply list_elem_of_here.
Qed.

(** Deleting one of two distinct members leaves the other. *)
Lemma set_delete_pair c h g :
  NoDup c → length c = 2 → h ∈ c → g ∈ c → g ≠ h → set_delete c h = [g].
Proof.
  intros Hnd Hlen Hh Hg Hne.
  destruct c as [| a [| b [| ? ?]]]; simpl in Hlen; try lia.
  apply NoDup_cons in Hnd as [Hab _].
  rewrite list_elem_of_singleton in Hab; try (rewrite not_elem_of_cons in Hab).
  unfold set_delete.
  rewrite !elem_of_cons in Hh, Hg.
  destruct Hh as [-> | [-> | Hh]]; [| | by apply elem_of_nil in Hh];
    (destruct Hg as [-> | [-> | Hg]]; [| | by apply elem_of_nil in Hg]);
    try done.
  - rewrite filter_cons_False by (intros ?; done).
    rewrite filter_cons_True by done. done.
  - rewrite filter_cons_True by done.
    rewrite filter_cons_False by (intros ?; done). done.
Qed.

(** ** Registry lookups *)

Lemma rooms_get_own m roomId r : m !! roomId = Some r → rooms_get m roomId = Own r.
Proof. intros H. unfold rooms_get. by rewrite H. Qed.

Lemma rooms_get_Own m roomId r :
  rooms_get m roomId = Own r → m !! roomId = Some r.
Proof.
  unfold rooms_get. destruct (m !! roomId); [congruence |].
  by case_bool_decide.
Qed.

Lemma rooms_get_missing m roomId :
  m !! roomId = None → roomId ∉ object_prototype_keys →
  rooms_get m roomId = Missing.
Proof.
  intros H Hk. unfold rooms_get. rewrite H.
  by rewrite bool_decide_eq_false_2.
Qed.

Lemma rooms_get_proto m roomId :
  m !! roomId = None → roomId ∈ object_prototype_keys →
  rooms_get m roomId = Proto.
Proof.
  intros H Hk. unfold rooms_get. rewrite H.
  by rewrite bool_decide_eq_true_2.
Qed.

Lemma with_state_id r : with_state r (state r) = r.
Proof. by destruct r. Qed.

Lemma set_room_id st roomId r :
  rooms st !! roomId = Some r → set_room st roomId r = st.
Proof.
  intros H. destruct st as [m j]. unfold set_room. simpl in *.
  by rewrite insert_id.
Qed.

Lemma joined_of_set_room st roomId r roomId' :
  joined_of (set_room st roomId r) roomId' = joined_of st roomId'.
Proof. done. Qed.

Lemma joined_of_leave st socketId roomId :
  joined_of (leave st socketId) roomId = joined_of st roomId ∖ {[ socketId ]}.
Proof.
  unfold joined_of, leave. simpl. rewrite lookup_fmap.
  destruct (joined st !! roomId); simpl; [done | set_solver].
Qed.

(** ** The body of the [disconnect] loop *)

Lemma leave_room_clients socketId r r' :
  leave_room socketId r = Some r' →
  clients r' = set_delete (clients r) socketId ∧ state r' = state r.
Proof.
  unfold leave_room. destruct (set_has (clients r) socketId) eqn:E.
  - destruct (length _ =? 0)%nat; [done |]. by intros [= <-].
  - intros [= <-]. apply set_has_false in E. by rewrite set_delete_absent.
Qed.

Lemma leave_room_host socketId r r' :
  leave_room socketId r = Some r' → socketId ∈ clients r →
  hostSocketId r' =
    if is_host socketId (hostSocketId r)
    then first_or_null (set_delete (clients r) socketId)
    else hostSocketId r.
Proof.
  unfold leave_room. intros H Hin. apply set_has_true in Hin. rewrite Hin in H.
  destruct (length _ =? 0)%nat; [done |]. by simplify_eq.
Qed.

Lemma leave_room_None socketId r :
  leave_room socketId r = None ↔
  socketId ∈ clients r ∧ set_delete (clients r) socketId = [].
Proof.
  unfold leave_room. destruct (set_has (clients r) socketId) eqn:E.
  - apply set_has_true in E.
    destruct (set_delete (clients r) socketId) eqn:D; simpl; naive_solver.
  - apply set_has_false in E. naive_solver.
Qed.

Lemma leave_room_ok socketId r r' :
  room_ok r → leave_room socketId r = Some r' → room_ok r'.
Proof.
  intros (Hnd & Hne & Hhost) H.
  destruct (leave_room_clients _ _ _ H) as [Hc _].
  split_and!.
  - rewrite Hc. by apply NoDup_set_delete.
  - rewrite Hc. rewrite elem_of_set_delete. tauto.
  - intros h Hh. rewrite Hc.
    destruct (decide (socketId ∈ clients r)) as [Hin | Hnin].
    + rewrite (leave_room_host _ _ _ H Hin) in Hh.
      unfold is_host in Hh. case_bool_decide as Hd.
      * by apply first_or_null_elem.
      * apply elem_of_set_delete. split; [by apply Hhost |].
        intros ->. by apply Hd.
    + apply set_has_false in Hnin as Hf. unfold leave_room in H.
      rewrite Hf in H. simplify_eq.
      rewrite set_delete_absent by done. by apply Hhost.
Qed.

Lemma lookup_leave st socketId roomId :
  rooms (leave st socketId) !! roomId =
  rooms st !! roomId ≫= leave_room socketId.
Proof. unfold leave. simpl. apply lookup_omap. Qed.

(** ** The invariants are kept by every handler *)

Lemma wf_init : wf init.
Proof.
  split.
  - intros roomId r H. simpl in H. by rewrite lookup_empty in H.
  - intros roomId r H. simpl in H. by rewrite lookup_empty in H.
  - intros roomId s. unfold joined_of. simpl. rewrite !lookup_empty. simpl.
    split; [by intros ?%not_elem_of_empty |].
    by intros (r & H & _).
Qed.

Lemma wf_create st roomId v a s now :
  wf st → roomId ∉ object_prototype_keys → rooms st !! roomId = None →
  wf (fst (create st roomId v a s now)).
Proof.
  intros [Hk Hr Hj] Hkey Hfresh. unfold create.
  destruct v as [v |], a as [a |]; simpl; try by split.
  split.
  - intros i r. simpl. rewrite lookup_insert.
    case_decide; [by intros; subst | apply Hk].
  - intros i r. simpl. rewrite lookup_insert.
    case_decide; [| apply Hr]. intros [= <-].
    split_and!; simpl; [apply NoDup_nil_2 | apply not_elem_of_nil | done].
  - intros i x. rewrite joined_of_set_room, Hj. simpl. rewrite lookup_insert.
    case_decide as Hd; [| done]. subst i. rewrite Hfresh.
    split; [by intros (r & ? & _) |].
    intros (r & [= <-] & Hx). by apply elem_of_nil in Hx.
Qed.

Lemma wf_join_room st socketId roomId asHost now st' out :
  wf st → socketId ≠ "" →
  join_room st socketId roomId asHost now = Ok st' out → wf st'.
Proof.
  intros Hwf Hsid. unfold join_room.
  destruct (rooms_get (rooms st) roomId) as [r | |] eqn:G;
    [| done | by intros [= <- _]].
  apply rooms_get_Own in G as Hr.
  destruct (_ && _); [by intros [= <- _] |].
  destruct Hwf as [Hk Hok Hj].
  destruct (Hok _ _ Hr) as (Hnd & Hne & Hhost).
  set (c := set_add (clients r) socketId).
  assert (∀ h, (h = Some socketId ∨ h = hostSocketId r) →
               wf (set_room (socket_join st socketId roomId) roomId
                     (with_host (with_clients r c) h))) as Hgen.
  { intros h Hh. split.
    - intros i r'. simpl. rewrite lookup_insert.
      case_decide; [intros _; subst i; by eapply Hk | apply Hk].
    - intros i r'. simpl. rewrite lookup_insert.
      case_decide; [| apply Hok]. intros [= <-]. split_and!; simpl.
      + by apply NoDup_set_add.
      + unfold c. rewrite elem_of_set_add. naive_solver.
      + intros h' ->. unfold c. rewrite elem_of_set_add.
        destruct Hh as [[= ->] | Hh]; [by left | right; by apply Hhost].
    - intros i x. unfold joined_of. simpl. rewrite !lookup_insert.
      case_decide as Hd.
      + subst i. simpl. rewrite elem_of_union, elem_of_singleton.
        fold (joined_of st roomId). rewrite Hj. split.
        * intros Hx. eexists; split; [done |]. simpl. unfold c.
          rewrite elem_of_set_add. destruct Hx as [-> | (r' & Hr' & Hx)];
            [by left | right; congruence].
        * intros (r' & [= <-] & Hx). simpl in Hx. unfold c in Hx.
          rewrite elem_of_set_add in Hx. destruct Hx; [by left | right; eauto].
      + apply Hj. }
  destruct (asHost || _).
  - intros [= <- _]. apply Hgen. by left.
  - intros [= <- _].
    replace (with_clients r (set_add (clients r) socketId))
      with (with_host (with_clients r c) (hostSocketId r)) by done.
    apply Hgen. by right.
Qed.

Lemma wf_control st socketId roomId action time now st' out :
  wf st → control st socketId roomId action time now = Ok st' out → wf st'.
Proof.
  intros Hwf. unfold control.
  destruct (rooms_get (rooms st) roomId) as [r | |] eqn:G;
    [| by intros [= <- _] | by intros [= <- _]].
  apply rooms_get_Own in G as Hr.
  destruct (negb _); [by intros [= <- _] |]. intros [= <- _].
  destruct Hwf as [Hk Hok Hj]. split.
  - intros i r'. simpl. rewrite lookup_insert.
    case_decide; [intros _; subst i; by eapply Hk | apply Hk].
  - intros i r'. simpl. rewrite lookup_insert.
    case_decide; [| apply Hok]. intros [= <-]. by apply (Hok _ _ Hr).
  - intros i x. rewrite joined_of_set_room, Hj. simpl. rewrite lookup_insert.
    case_decide as Hd; [| done]. subst i. rewrite Hr. naive_solver.
Qed.

Lemma wf_request_sync st socketId roomId now st' out :
  wf st → request_sync st socketId roomId now = Ok st' out → wf st'.
Proof.
  intros Hwf. unfold request_sync.
  destruct (rooms_get (rooms st) roomId); by intros [= <- _].
Qed.

Lemma wf_leave st socketId : wf st → wf (leave st socketId).
Proof.
  intros [Hk Hok Hj]. split.
  - intros i r'. rewrite lookup_leave.
    destruct (rooms st !! i) as [r |] eqn:Hr; [| done]. intros _.
    by eapply Hk.
  - intros i r'. rewrite lookup_leave.
    destruct (rooms st !! i) as [r |] eqn:Hr; [| done]. simpl.
    apply leave_room_ok. by eapply Hok.
  - intros i x. rewrite joined_of_leave, elem_of_difference, Hj.
    rewrite elem_of_singleton, lookup_leave.
    destruct (rooms st !! i) as [r |] eqn:Hr; simpl; [| naive_solver].
    destruct (leave_room socketId r) as [r' |] eqn:L.
    + destruct (leave_room_clients _ _ _ L) as [Hc _]. split.
      * intros [(r0 & [= <-] & Hx) Hne]. exists r'. split; [done |].
        rewrite Hc. by apply elem_of_set_delete.
      * intros (r0 & [= <-] & Hx). rewrite Hc in Hx.
        apply elem_of_set_delete in Hx as [Hx Hne]. eauto.
    + apply leave_room_None in L as [_ L]. split; [| naive_solver].
      intros [(r0 & [= <-] & Hx) Hne].
      assert (x ∈ set_delete (clients r) socketId) as Hin
        by by apply elem_of_set_delete.
      rewrite L in Hin. by apply elem_of_nil in Hin.
Qed.

Lemma wf_step st e st' out :
  wf st → valid_event st e → step st e = Ok st' out → wf st'.
Proof.
  intros Hwf Hv. destruct e; simpl in *.
  - destruct Hv as [Hkey Hfresh]. intros [= <- _]. by apply wf_create.
  - by apply wf_join_room.
  - by apply wf_control.
  - by apply wf_request_sync.
  - intros [= <- _]. by apply wf_leave.
Qed.

Lemma reachable_wf st : reachable st → wf st.
Proof.
  induction 1 as [| st e st' out _ IH Hv Hs]; [apply wf_init |].
  by eapply wf_step.
Qed.

(** ** The sample session *)

Lemma run_session :
  run init session =
  Ok demo [ Emit (ToSocket "H") (Role "host");
            Emit (ToSocket "G") (Role "guest");
            Emit (ToSocket "G")
                 (SyncState (Some (Playback false 0 1000)) 1002
                            (Some (Some "H"))) ].
Proof. vm_compute. reflexivity. Qed.

Lemma demo_lookup : rooms demo !! "room-1" = Some demo_room.
Proof. reflexivity. Qed.

Lemma demo_reachable : reachable demo.
Proof.
  eapply (reach_step _ (JoinRoom "G" "room-1" false 1002)).
  - eapply (reach_step _ (JoinRoom "H" "room-1" true 1001)).
    + eapply (reach_step _ (Create "room-1" (Some "film.mp4")
                                   (Some "cover.png") None 1000)).
      * apply reach_init.
      * split; [by_eval | reflexivity].
      * reflexivity.
    + done.
    + reflexivity.
  - done.
  - vm_compute. reflexivity.
Qed.

Lemma demo_wf : wf demo.
Proof. apply reachable_wf, demo_reachable. Qed.

Lemma solo_wf : wf solo.
Proof.
  replace solo with (leave demo "H") by (vm_compute; reflexivity).
  apply wf_leave, demo_wf.
Qed.

(** ** Delivery of a broadcast *)

Lemma members_receive st roomId r m :
  wf st → rooms st !! roomId = Some r → m ∈ clients r →
  m ∈ recipients st (ToRoom roomId).
Proof. intros Hwf Hr Hm. simpl. apply (wf_joined _ Hwf). eauto. Qed.

Lemma host_is_member st roomId r h :
  wf st → rooms st !! roomId = Some r → hostSocketId r = Some h →
  h ∈ clients r ∧ h ≠ "".
Proof.
  intros Hwf Hr Hh. destruct (wf_room _ Hwf _ _ Hr) as (_ & Hne & Hhost).
  split; [by apply Hhost |]. intros ->. by apply Hne, Hhost.
Qed.

(** ** [control] *)

Lemma apply_action_play s time now :
  apply_action s "play" time now = Playback true time now.
Proof. reflexivity. Qed.

Lemma apply_action_pause s time now :
  apply_action s "pause" time now = Playback false time now.
Proof. reflexivity. Qed.

Lemma apply_action_seek s time now :
  apply_action s "seek" time now = Playback (playing s) time now.
Proof. reflexivity. Qed.

Lemma apply_action_other s action time now :
  action ∉ ["play"; "pause"; "seek"] → apply_action s action time now = s.
Proof.
  intros H. rewrite !not_elem_of_cons in H. destruct H as (H1 & H2 & H3 & _).
  unfold apply_action.
  destruct (String.eqb_spec action "play"); [done |].
  destruct (String.eqb_spec action "pause"); [done |].
  by destruct (String.eqb_spec action "seek").
Qed.

Lemma control_by_host st socketId roomId r action time now :
  rooms st !! roomId = Some r → hostSocketId r = Some socketId →
  control st socketId roomId action time now =
  Ok (set_room st roomId
        (with_state r (apply_action (state r) action time now)))
     [Emit (ToRoom roomId)
           (ControlMsg action time now
              (playing (apply_action (state r) action time now)))].
Proof.
  intros Hr Hh. unfold control. rewrite (rooms_get_own _ _ _ Hr).
  unfold is_host. by rewrite bool_decide_eq_true_2.
Qed.

(** C1: a [control] event whose sender is not the host of the room is
    dropped: the server state, hence the room's playback state
    [{playing, currentTime, lastUpdate}], is unchanged, and nothing is emitted
    to anybody, neither a [control] broadcast nor a [room-error]. *)
Theorem control_non_host_discarded st socketId roomId r action time now :
  rooms st !! roomId = Some r → hostSocketId r ≠ Some socketId →
  control st socketId roomId action time now = Ok st [].
Proof.
  intros Hr Hh. unfold control. rewrite (rooms_get_own _ _ _ Hr).
  unfold is_host. by rewrite bool_decide_eq_false_2.
Qed.

Lemma control_non_host_discarded_witness :
  rooms demo !! "room-1" = Some demo_room ∧
  hostSocketId demo_room ≠ Some "G" ∧
  control demo "G" "room-1" "pause" 15 2000 = Ok demo [].
Proof.
  split; [reflexivity |]. split; [discriminate |].
  apply (control_non_host_discarded demo "G" "room-1" demo_room);
    [reflexivity | discriminate].
Defined.

(** C3: a [control] event from the host of an existing room, with action
    [play], [pause] or [seek]: the room read back from the registry
    afterwards has [currentTime] equal to the supplied value and
    [lastUpdate] equal to [now]; its [playing] flag is [true] after [play],
    [false] after [pause] and as before after [seek]; host, members and
    every other room are as before; and exactly one [control] message
    [{action, currentTime, serverTime = now, playing}] with the stored flag
    goes to the room, where every member, the host included, receives it. *)
Theorem host_control_transition st socketId roomId r action time now :
  wf st → rooms st !! roomId = Some r → hostSocketId r = Some socketId →
  action ∈ ["play"; "pause"; "seek"] →
  ∃ st' r',
    control st socketId roomId action time now =
      Ok st' [Emit (ToRoom roomId)
                   (ControlMsg action time now (playing (state r')))] ∧
    rooms st' !! roomId = Some r' ∧
    currentTime (state r') = time ∧
    lastUpdate (state r') = now ∧
    (action = "play" → playing (state r') = true) ∧
    (action = "pause" → playing (state r') = false) ∧
    (action = "seek" → playing (state r') = playing (state r)) ∧
    hostSocketId r' = hostSocketId r ∧ clients r' = clients r ∧
    (∀ other, other ≠ roomId → rooms st' !! other = rooms st !! other) ∧
    (∀ m, m ∈ clients r' → m ∈ recipients st' (ToRoom roomId)) ∧
    socketId ∈ recipients st' (ToRoom roomId).
Proof.
  intros Hwf Hr Hh Ha.
  pose proof (control_by_host st socketId roomId r action time now Hr Hh) as Hc.
  destruct (host_is_member _ _ _ _ Hwf Hr Hh) as [Hm _].
  eexists _, (with_state r (apply_action (state r) action time now)).
  split; [exact Hc |].
  split; [simpl; apply lookup_insert_eq |].
  assert (apply_action (state r) action time now =
          Playback (if String.eqb action "play" then true
                    else if String.eqb action "pause" then false
                    else playing (state r)) time now) as Hs.
  { rewrite !elem_of_cons in Ha.
    destruct Ha as [-> | [-> | [-> | Ha]]]; [done | done | done |].
    by apply elem_of_nil in Ha. }
  simpl. rewrite Hs. simpl. split_and!; try done.
  - by intros ->.
  - by intros ->.
  - by intros ->.
  - intros other Hne. by rewrite lookup_insert_ne.
  - intros m Hin. change (m ∈ recipients st (ToRoom roomId)).
    by eapply members_receive.
  - change (socketId ∈ recipients st (ToRoom roomId)).
    by eapply members_receive.
Qed.

Lemma host_control_transition_witness :
  wf demo ∧ rooms demo !! "room-1" = Some demo_room ∧
  hostSocketId demo_room = Some "H" ∧
  ("play" ∈ ["play"; "pause"; "seek"]) ∧
  ∃ st' r',
    control demo "H" "room-1" "play" 10 2000 =
      Ok st' [Emit (ToRoom "room-1")
                   (ControlMsg "play" 10 2000 (playing (state r')))] ∧
    rooms st' !! "room-1" = Some r' ∧
    currentTime (state r') = 10%Q ∧
    lastUpdate (state r') = 2000%Z ∧
    playing (state r') = true.
Proof.
  assert ("play" ∈ ["play"; "pause"; "seek"]) as Ha by by_eval.
  split; [apply demo_wf |]. split; [reflexivity |]. split; [reflexivity |].
  split; [exact Ha |].
  destruct (host_control_transition demo "H" "room-1" demo_room "play" 10 2000
              demo_wf demo_lookup eq_refl Ha)
    as (st' & r' & Hc & Hr' & Ht & Hu & Hplay & _).
  exists st', r'. split_and!; [exact Hc | exact Hr' | exact Ht | exact Hu |].
  by apply Hplay.
Defined.

(** C10: a [control] event from the host whose action is none of [play],
    [pause] and [seek] changes nothing in the server state, and still one
    [control] message with that action, the supplied [currentTime], [now] and
    the stored [playing] flag goes to the room and reaches every member. *)
Theorem unknown_action_still_broadcast st socketId roomId r action time now :
  wf st → rooms st !! roomId = Some r → hostSocketId r = Some socketId →
  action ∉ ["play"; "pause"; "seek"] →
  control st socketId roomId action time now =
  Ok st [Emit (ToRoom roomId)
              (ControlMsg action time now (playing (state r)))] ∧
  ∀ m, m ∈ clients r → m ∈ recipients st (ToRoom roomId).
Proof.
  intros Hwf Hr Hh Ha. split.
  - rewrite (control_by_host _ _ _ _ _ _ _ Hr Hh).
    rewrite (apply_action_other _ _ _ _ Ha), with_state_id.
    by rewrite (set_room_id _ _ _ Hr).
  - intros m Hm. by eapply members_receive.
Qed.

Lemma unknown_action_still_broadcast_witness :
  wf demo ∧ rooms demo !! "room-1" = Some demo_room ∧
  hostSocketId demo_room = Some "H" ∧
  ("stop" ∉ ["play"; "pause"; "seek"]) ∧
  control demo "H" "room-1" "stop" 42 2000 =
  Ok demo [Emit (ToRoom "room-1") (ControlMsg "stop" 42 2000 false)] ∧
  ∀ m, m ∈ clients demo_room → m ∈ recipients demo (ToRoom "room-1").
Proof.
  split; [apply demo_wf |]. split; [reflexivity |]. split; [reflexivity |].
  split; [by_eval |].
  apply (unknown_action_still_broadcast demo "H" "room-1" demo_room "stop"
           42 2000);
    [apply demo_wf | reflexivity | reflexivity | by_eval].
Defined.

(** ** Capacity *)

Lemma join_room_full st socketId roomId r asHost now :
  rooms st !! roomId = Some r → (2 ≤ length (clients r))%nat →
  socketId ∉ clients r →
  join_room st socketId roomId asHost now =
  Ok st [Emit (ToSocket socketId) (RoomError "Room is full (2 users max).")].
Proof.
  intros Hr Hlen Hnin. unfold join_room. rewrite (rooms_get_own _ _ _ Hr).
  apply Nat.leb_le in Hlen. apply set_has_false in Hnin.
  by rewrite Hlen, Hnin.
Qed.

Lemma join_room_admitted st socketId roomId r asHost now :
  rooms st !! roomId = Some r →
  (length (clients r) < 2)%nat ∨ socketId ∈ clients r →
  join_room st socketId roomId asHost now =
  let r1 := with_clients r (set_add (clients r) socketId) in
  if asHost || no_host (hostSocketId r)
  then Ok (set_room (socket_join st socketId roomId) roomId
             (with_host r1 (Some socketId)))
          [Emit (ToSocket socketId) (Role "host")]
  else Ok (set_room (socket_join st socketId roomId) roomId r1)
          [Emit (ToSocket socketId) (Role "guest");
           Emit (ToSocket socketId)
                (SyncState (Some (state r)) now (Some (hostSocketId r)))].
Proof.
  intros Hr Hadm. unfold join_room. rewrite (rooms_get_own _ _ _ Hr).
  assert ((2 <=? length (clients r))%nat
          && negb (set_has (clients r) socketId) = false) as ->; [| done].
  destruct Hadm as [Hlt | Hin].
  - apply Nat.leb_gt in Hlt. by rewrite Hlt.
  - apply set_has_true in Hin. rewrite Hin. apply andb_false_r.
Qed.

Lemma bounded_step st e st' out :
  bounded st → step st e = Ok st' out → bounded st'.
Proof.
  intros Hb. destruct e as [rid v a s now | sid rid asHost now
                            | sid rid action time now | sid rid now | sid];
    simpl.
  - intros [= <- _]. unfold create.
    destruct v, a; simpl; try done.
    intros i r. simpl. rewrite lookup_insert.
    case_decide; [| apply Hb]. intros [= <-]. simpl. lia.
  - unfold join_room.
    destruct (rooms_get (rooms st) rid) as [r | |] eqn:G;
      [| done | by intros [= <- _]].
    apply rooms_get_Own in G as Hr.
    destruct (_ && _) eqn:Hfull; [by intros [= <- _] |].
    assert (length (set_add (clients r) sid) ≤ 2)%nat as Hlen.
    { rewrite length_set_add. apply andb_false_iff in Hfull as [Hlt | Hhas].
      - apply Nat.leb_gt in Hlt. destruct (set_has _ _); lia.
      - apply negb_false_iff in Hhas. rewrite Hhas. by eapply Hb. }
    destruct (asHost || _); intros [= <- _]; intros i r'; simpl;
      rewrite lookup_insert; (case_decide; [| apply Hb]); by intros [= <-].
  - unfold control.
    destruct (rooms_get (rooms st) rid) as [r | |] eqn:G;
      [| by intros [= <- _] | by intros [= <- _]].
    apply rooms_get_Own in G as Hr.
    destruct (negb _); intros [= <- _]; [done |].
    intros i r'. simpl. rewrite lookup_insert.
    case_decide; [| apply Hb]. intros [= <-]. simpl. by eapply Hb.
  - unfold request_sync.
    by destruct (rooms_get (rooms st) rid); intros [= <- _].
  - intros [= <- _]. intros i r'. rewrite lookup_leave.
    destruct (rooms st !! i) as [r |] eqn:Hr; [| done]. simpl. intros L.
    destruct (leave_room_clients _ _ _ L) as [-> _].
    pose proof (length_set_delete (clients r) sid).
    pose proof (Hb _ _ Hr). lia.
Qed.

Lemma bounded_run es : ∀ st st' out,
  bounded st → run st es = Ok st' out → bounded st'.
Proof.
  induction es as [| e es IH]; intros st st' out Hb; simpl.
  - by intros [= <- _].
  - destruct (step st e) as [st1 out1 |] eqn:Hs; [| done].
    destruct (run st1 es) as [st2 out2 |] eqn:Hr; [| done].
    intros [= <- _]. eapply IH; [| done]. by eapply bounded_step.
Qed.

Lemma bounded_init : bounded init.
Proof. intros i r H. simpl in H. by rewrite lookup_empty in H. Qed.

(** C2: whatever events the server has handled since start-up (room
    creations, joins, controls, sync requests, disconnects), no room has more
    than two members; and when a room has two members, a [join-room] from
    another connection is answered by the room-full [room-error], sent to
    that connection alone, and leaves the whole server state as it was. *)
Theorem room_capacity es st out roomId r socketId asHost now :
  run init es = Ok st out → rooms st !! roomId = Some r →
  (length (clients r) ≤ 2)%nat ∧
  (length (clients r) = 2%nat → socketId ∉ clients r →
   join_room st socketId roomId asHost now =
   Ok st [Emit (ToSocket socketId)
               (RoomError "Room is full (2 users max).")] ∧
   recipients st (ToSocket socketId) = {[ socketId ]}).
Proof.
  intros Hrun Hr. split.
  - by eapply (bounded_run es init st out bounded_init Hrun).
  - intros Hlen Hnin. split; [| done].
    apply (join_room_full st socketId roomId r); [done | lia | done].
Qed.

Lemma room_capacity_witness :
  run init session = Ok demo
    [ Emit (ToSocket "H") (Role "host");
      Emit (ToSocket "G") (Role "guest");
      Emit (ToSocket "G")
           (SyncState (Some (Playback false 0 1000)) 1002 (Some (Some "H"))) ] ∧
  rooms demo !! "room-1" = Some demo_room ∧
  (length (clients demo_room) ≤ 2)%nat ∧
  join_room demo "X" "room-1" true 3000 =
  Ok demo [Emit (ToSocket "X") (RoomError "Room is full (2 users max).")].
Proof.
  split; [vm_compute; reflexivity |]. split; [reflexivity |].
  destruct (room_capacity session demo _ "room-1" demo_room "X" true 3000
              run_session demo_lookup) as [Hle Hfull].
  split; [exact Hle |].
  apply Hfull; [reflexivity | by_eval].
Defined.

(** ** Roles *)

(** C4: a join that is admitted into an existing room (the room has fewer
    than two members, or the connection is already one of them).  With
    [asHost] set, or when the room has no host, the room read back from the
    registry afterwards has the joining connection as [hostSocketId],
    whoever was host before, and the connection is sent [role: host].
    Otherwise the host read back is the previous one and the connection is
    sent [role: guest] followed by a [sync-state] with the playback state,
    the time of sending and the host's identifier.  In both cases the
    members afterwards are the previous ones and the joiner, and the
    playback state is as before. *)
Theorem join_role st socketId roomId r asHost now :
  rooms st !! roomId = Some r →
  (length (clients r) < 2)%nat ∨ socketId ∈ clients r →
  (asHost = true ∨ hostSocketId r = None →
   ∃ st' r',
     join_room st socketId roomId asHost now =
       Ok st' [Emit (ToSocket socketId) (Role "host")] ∧
     rooms st' !! roomId = Some r' ∧
     hostSocketId r' = Some socketId ∧
     (∀ m, m ∈ clients r' ↔ m = socketId ∨ m ∈ clients r) ∧
     state r' = state r ∧
     socketId ∈ joined_of st' roomId) ∧
  (∀ h, asHost = false → hostSocketId r = Some h → h ≠ "" →
   ∃ st' r',
     join_room st socketId roomId asHost now =
       Ok st' [Emit (ToSocket socketId) (Role "guest");
               Emit (ToSocket socketId)
                    (SyncState (Some (state r)) now (Some (Some h)))] ∧
     rooms st' !! roomId = Some r' ∧
     hostSocketId r' = Some h ∧
     (∀ m, m ∈ clients r' ↔ m = socketId ∨ m ∈ clients r) ∧
     state r' = state r ∧
     socketId ∈ joined_of st' roomId).
Proof.
  intros Hr Hadm.
  pose proof (join_room_admitted st socketId roomId r asHost now Hr Hadm) as Hj.
  simpl in Hj.
  assert (socketId ∈ joined_of (socket_join st socketId roomId) roomId) as Hin.
  { unfold joined_of, socket_join. simpl. rewrite lookup_insert_eq. simpl.
    apply elem_of_union_l. by apply elem_of_singleton. }
  split.
  - intros Hhost.
    assert (asHost || no_host (hostSocketId r) = true) as Hb.
    { destruct Hhost as [-> | ->]; [done | apply orb_true_r]. }
    rewrite Hb in Hj. eexists _, _. split; [exact Hj |].
    split; [simpl; apply lookup_insert_eq |]. simpl.
    split_and!; [done | apply elem_of_set_add | done | exact Hin].
  - intros h -> Hh Hne. rewrite Hh in Hj. simpl in Hj.
    rewrite (truthy_nonempty _ Hne) in Hj. simpl in Hj.
    eexists _, _. split; [exact Hj |].
    split; [simpl; apply lookup_insert_eq |]. simpl.
    split_and!; [done | apply elem_of_set_add | done | exact Hin].
Qed.

Lemma join_role_witness :
  rooms demo !! "room-1" = Some demo_room ∧
  rooms solo !! "room-1" = Some solo_room ∧
  (∃ st' r',
     join_room demo "G" "room-1" true 3000 =
       Ok st' [Emit (ToSocket "G") (Role "host")] ∧
     rooms st' !! "room-1" = Some r' ∧ hostSocketId r' = Some "G") ∧
  (∃ st' r',
     join_room solo "K" "room-1" false 3000 =
       Ok st' [Emit (ToSocket "K") (Role "guest");
               Emit (ToSocket "K")
                    (SyncState (Some (Playback false 0 1000)) 3000
                               (Some (Some "G")))] ∧
     rooms st' !! "room-1" = Some r' ∧ hostSocketId r' = Some "G" ∧
     (∀ m, m ∈ clients r' ↔ m = "K" ∨ m ∈ clients solo_room)).
Proof.
  split; [reflexivity |]. split; [reflexivity |]. split.
  - assert ((length (clients demo_room) < 2)%nat ∨ "G" ∈ clients demo_room)
      as Hadm by (right; by_eval).
    destruct (join_role demo "G" "room-1" demo_room true 3000 eq_refl Hadm)
      as [Hhost _].
    destruct (Hhost (or_introl eq_refl))
      as (st' & r' & Hj & Hr' & Hh & _).
    by exists st', r'.
  - assert ((length (clients solo_room) < 2)%nat ∨ "K" ∈ clients solo_room)
      as Hadm by (left; simpl; lia).
    destruct (join_role solo "K" "room-1" solo_room false 3000 eq_refl Hadm)
      as [_ Hguest].
    destruct (Hguest "G" eq_refl eq_refl) as (st' & r' & Hj & Hr' & Hh & Hc & _);
      [discriminate |].
    by exists st', r'.
Defined.

(** ** Disconnection *)

Lemma disconnect_returns st socketId :
  disconnect st socketId = Ok (leave st socketId) [].
Proof. reflexivity. Qed.

Lemma leave_room_host_leaves r h g :
  room_ok r → hostSocketId r = Some h → length (clients r) = 2%nat →
  g ∈ clients r → g ≠ h →
  leave_room h r = Some (with_host (with_clients r [g]) (Some g)).
Proof.
  intros (Hnd & Hne & Hhost) Hh Hlen Hg Hgh.
  pose proof (Hhost _ Hh) as Hin.
  unfold leave_room. apply set_has_true in Hin as Hhas. rewrite Hhas.
  rewrite (set_delete_pair _ h g Hnd Hlen Hin Hg Hgh). simpl.
  unfold is_host. rewrite bool_decide_eq_true_2 by done.
  unfold first_or_null. simpl.
  assert (g ≠ "") as Hg0 by (intros ->; done).
  by rewrite (truthy_nonempty _ Hg0).
Qed.

(** C5: in a room of two whose host disconnects, the room stays in the
    registry and, read back from it, has the other member as its only
    member and as its host, with the playback state untouched.  A [control]
    event that this member sends next is handled as the host's: one
    [control] message with the stored [playing] flag goes to the room and
    reaches the member, and the room read back afterwards still has the
    member as host and carries the new playback state, which for [play],
    [pause] and [seek] has the supplied [currentTime], [lastUpdate = now]
    and the flag the action prescribes. *)
Theorem host_migration st roomId r h g action time now :
  wf st → rooms st !! roomId = Some r → hostSocketId r = Some h →
  length (clients r) = 2%nat → g ∈ clients r → g ≠ h →
  disconnect st h = Ok (leave st h) [] ∧
  ∃ r1 st2 r2,
    rooms (leave st h) !! roomId = Some r1 ∧
    hostSocketId r1 = Some g ∧ clients r1 = [g] ∧ state r1 = state r ∧
    control (leave st h) g roomId action time now =
      Ok st2 [Emit (ToRoom roomId)
                   (ControlMsg action time now (playing (state r2)))] ∧
    rooms st2 !! roomId = Some r2 ∧
    hostSocketId r2 = Some g ∧ clients r2 = [g] ∧
    (action ∈ ["play"; "pause"; "seek"] →
     currentTime (state r2) = time ∧ lastUpdate (state r2) = now) ∧
    (action = "play" → playing (state r2) = true) ∧
    (action = "pause" → playing (state r2) = false) ∧
    (action = "seek" → playing (state r2) = playing (state r)) ∧
    (action ∉ ["play"; "pause"; "seek"] → state r2 = state r) ∧
    g ∈ recipients st2 (ToRoom roomId).
Proof.
  intros Hwf Hr Hh Hlen Hg Hgh.
  split; [done |].
  set (r1 := with_host (with_clients r [g]) (Some g)).
  assert (rooms (leave st h) !! roomId = Some r1) as Hr1.
  { rewrite lookup_leave, Hr. simpl.
    apply leave_room_host_leaves; try done. by eapply wf_room. }
  exists r1. eexists _, (with_state r1 (apply_action (state r) action time now)).
  split; [exact Hr1 |]. split; [done |]. split; [done |]. split; [done |].
  split; [by rewrite (control_by_host _ g roomId r1 action time now Hr1) |].
  split; [simpl; apply lookup_insert_eq |]. simpl.
  split_and!; try done.
  - intros Ha. rewrite !elem_of_cons in Ha.
    destruct Ha as [-> | [-> | [-> | Ha]]]; [done | done | done |].
    by apply elem_of_nil in Ha.
  - by intros ->.
  - by intros ->.
  - by intros ->.
  - apply apply_action_other.
  - change (g ∈ recipients (leave st h) (ToRoom roomId)).
    eapply members_receive; [by apply wf_leave | done |].
    simpl. apply list_elem_of_here.
Qed.

Lemma host_migration_witness :
  wf demo ∧ rooms demo !! "room-1" = Some demo_room ∧
  ∃ r1 st2 r2,
    rooms (leave demo "H") !! "room-1" = Some r1 ∧
    hostSocketId r1 = Some "G" ∧ clients r1 = ["G"] ∧
    control (leave demo "H") "G" "room-1" "pause" 15 2000 =
      Ok st2 [Emit (ToRoom "room-1")
                   (ControlMsg "pause" 15 2000 (playing (state r2)))] ∧
    rooms st2 !! "room-1" = Some r2 ∧
    currentTime (state r2) = 15%Q ∧ lastUpdate (state r2) = 2000%Z ∧
    playing (state r2) = false.
Proof.
  split; [apply demo_wf |]. split; [reflexivity |].
  assert ("G" ∈ clients demo_room) as Hg by by_eval.
  assert ("pause" ∈ ["play"; "pause"; "seek"]) as Ha by by_eval.
  destruct (host_migration demo "room-1" demo_room "H" "G" "pause" 15 2000
              demo_wf demo_lookup eq_refl eq_refl Hg)
    as (_ & r1 & st2 & r2 & Hr1 & Hh1 & Hc1 & _ & Hctl & Hr2 & _ & _ & Hval
        & _ & Hpause & _); [discriminate |].
  destruct (Hval Ha) as [Ht Hu].
  exists r1, st2, r2.
  split_and!; [exact Hr1 | exact Hh1 | exact Hc1 | exact Hctl | exact Hr2
              | exact Ht | exact Hu | by apply Hpause].
Defined.

(** C6: when the only member of a room disconnects, the room is deleted
    from the registry, and a later [join-room] with the same identifier
    changes nothing and is answered by the room-not-found [room-error], sent
    to the joining connection alone. *)
Theorem room_teardown st roomId r socketId joiner asHost now :
  wf st → rooms st !! roomId = Some r → clients r = [socketId] →
  disconnect st socketId = Ok (leave st socketId) [] ∧
  rooms (leave st socketId) !! roomId = None ∧
  join_room (leave st socketId) joiner roomId asHost now =
    Ok (leave st socketId)
       [Emit (ToSocket joiner) (RoomError "Room not found.")] ∧
  recipients (leave st socketId) (ToSocket joiner) = {[ joiner ]}.
Proof.
  intros Hwf Hr Hc.
  assert (rooms (leave st socketId) !! roomId = None) as Hgone.
  { rewrite lookup_leave, Hr. simpl. apply leave_room_None. rewrite Hc.
    split; [apply list_elem_of_here |].
    unfold set_delete. by rewrite filter_cons_False by (intros ?; done). }
  split_and!; [done | done | | done].
  unfold join_room. rewrite rooms_get_missing; [done | done |].
  by eapply wf_keys.
Qed.

Lemma room_teardown_witness :
  wf solo ∧ rooms solo !! "room-1" = Some solo_room ∧
  clients solo_room = ["G"] ∧
  rooms (leave solo "G") !! "room-1" = None ∧
  join_room (leave solo "G") "K" "room-1" true 3000 =
  Ok (leave solo "G") [Emit (ToSocket "K") (RoomError "Room not found.")].
Proof.
  split; [apply solo_wf |]. split; [reflexivity |]. split; [reflexivity |].
  destruct (room_teardown solo "room-1" solo_room "G" "K" true 3000
              solo_wf eq_refl eq_refl) as (_ & Hgone & Hjoin & _).
  split; [exact Hgone | exact Hjoin].
Defined.

(** ** Events that name no room of the registry *)

(** The sample registry has no room ["room-2"]; a [control] event naming it
    brings the sender no [room-error]. *)
Lemma control_missing_counterexample :
  rooms demo !! "room-2" = None ∧
  ¬ signals_error (control demo "G" "room-2" "play" 10 2000) "G".
Proof.
  split; [reflexivity |].
  intros (st & out & message & Hres & Hin).
  vm_compute in Hres. injection Hres as _ <-.
  by apply elem_of_nil in Hin.
Qed.

(** C7, amended: a [control] event whose room identifier is not in the
    registry is ignored in silence: the server state is unchanged and
    nothing is emitted, neither a [room-error] to the sender nor a message
    to anybody else. *)
Theorem control_unknown_room_ignored st socketId roomId action time now :
  rooms st !! roomId = None →
  control st socketId roomId action time now = Ok st [].
Proof.
  intros Hr. unfold control, rooms_get. rewrite Hr. by case_bool_decide.
Qed.

Lemma control_unknown_room_ignored_witness :
  rooms demo !! "room-2" = None ∧
  control demo "G" "room-2" "play" 10 2000 = Ok demo [].
Proof.
  split; [reflexivity |].
  apply (control_unknown_room_ignored demo "G" "room-2" "play" 10 2000).
  reflexivity.
Defined.

(** ** [request-sync] *)

Lemma request_sync_existing st socketId roomId r now :
  rooms st !! roomId = Some r →
  request_sync st socketId roomId now =
  Ok st [Emit (ToSocket socketId)
              (SyncState (Some (state r)) now (Some (hostSocketId r)))] ∧
  recipients st (ToSocket socketId) = {[ socketId ]}.
Proof.
  intros Hr. unfold request_sync. by rewrite (rooms_get_own _ _ _ Hr).
Qed.

Lemma request_sync_undefined st socketId roomId now :
  rooms st !! roomId = None → roomId ∉ object_prototype_keys →
  request_sync st socketId roomId now = Ok st [].
Proof.
  intros Hr Hk. unfold request_sync. by rewrite rooms_get_missing.
Qed.

Lemma request_sync_inherited st socketId roomId now :
  rooms st !! roomId = None → roomId ∈ object_prototype_keys →
  request_sync st socketId roomId now =
  Ok st [Emit (ToSocket socketId) (SyncState None now None)].
Proof.
  intros Hr Hk. unfold request_sync. by rewrite rooms_get_proto.
Qed.

(** C8: the registry of the sample session has no room ["constructor"],
    and yet a [request-sync] naming it is answered: [rooms["constructor"]]
    is the function inherited from [Object.prototype], which passes the
    [!room] test, so a [sync-state] whose [state] and [hostSocketId] are
    [undefined] is sent to the requester. *)
Theorem request_sync_prototype_key :
  rooms demo !! "constructor" = None ∧
  request_sync demo "G" "constructor" 2000 =
  Ok demo [Emit (ToSocket "G") (SyncState None 2000 None)].
Proof. split; reflexivity. Qed.

(** ** The stored position *)

Lemma apply_action_time s action time now :
  currentTime (apply_action s action time now) = time ∨
  currentTime (apply_action s action time now) = currentTime s.
Proof.
  unfold apply_action.
  destruct (String.eqb action "play"); [by left |].
  destruct (String.eqb action "pause"); [by left |].
  destruct (String.eqb action "seek"); [by left | by right].
Qed.

Lemma apply_action_time_applied s action time now :
  action ∈ ["play"; "pause"; "seek"] →
  currentTime (apply_action s action time now) = time.
Proof.
  intros Ha. rewrite !elem_of_cons in Ha.
  destruct Ha as [-> | [-> | [-> | Ha]]]; [done | done | done |].
  by apply elem_of_nil in Ha.
Qed.

(** A step keeps the positions non-negative when the control it applies,
    if any, carries a non-negative time. *)
Lemma nonneg_step st e st' out :
  nonneg_positions st →
  (∀ time, applied_control st e time → (0 <= time)%Q) →
  step st e = Ok st' out → nonneg_positions st'.
Proof.
  intros Hp Ht. destruct e as [rid v a s now | sid rid asHost now
                               | sid rid action time now | sid rid now | sid];
    simpl.
  - intros [= <- _]. unfold create.
    destruct v, a; simpl; try done.
    intros i r. simpl. rewrite lookup_insert.
    case_decide; [| apply Hp]. intros [= <-]. simpl. apply Qle_refl.
  - unfold join_room.
    destruct (rooms_get (rooms st) rid) as [r | |] eqn:G;
      [| done | by intros [= <- _]].
    apply rooms_get_Own in G as Hr.
    destruct (_ && _); [by intros [= <- _] |].
    destruct (asHost || _); intros [= <- _]; intros i r'; simpl;
      rewrite lookup_insert; (case_decide; [| apply Hp]); intros [= <-];
      simpl; by eapply Hp.
  - unfold control.
    destruct (rooms_get (rooms st) rid) as [r | |] eqn:G;
      [| by intros [= <- _] | by intros [= <- _]].
    apply rooms_get_Own in G as Hr.
    destruct (is_host sid (hostSocketId r)) eqn:Hhost; simpl;
      intros [= <- _]; [| done].
    unfold is_host in Hhost. apply bool_decide_eq_true in Hhost.
    intros i r'. simpl. rewrite lookup_insert.
    case_decide; [| apply Hp]. intros [= <-]. simpl.
    destruct (decide (action ∈ ["play"; "pause"; "seek"])) as [Ha | Ha].
    + rewrite (apply_action_time_applied _ _ _ _ Ha). apply Ht.
      by exists sid, rid, action, now, r.
    + rewrite (apply_action_other _ _ _ _ Ha). by eapply Hp.
  - unfold request_sync.
    by destruct (rooms_get (rooms st) rid); intros [= <- _].
  - intros [= <- _]. intros i r'. rewrite lookup_leave.
    destruct (rooms st !! i) as [r |] eqn:Hr; [| done]. simpl. intros L.
    destruct (leave_room_clients _ _ _ L) as [_ ->]. by eapply Hp.
Qed.

(** An applied control stores its time as the position of its room. *)
Lemma applied_control_stores st e time st' out :
  applied_control st e time → step st e = Ok st' out →
  ∃ roomId r',
    event_room e = Some roomId ∧ rooms st' !! roomId = Some r' ∧
    currentTime (state r') = time.
Proof.
  intros (sid & rid & action & now & r & -> & Hr & Hh & Ha). simpl.
  rewrite (control_by_host _ _ _ _ _ _ _ Hr Hh). intros [= <- _].
  eexists rid, _. split; [done |].
  split; [simpl; apply lookup_insert_eq |]. simpl.
  by apply apply_action_time_applied.
Qed.

Lemma applied_times_cons st e es st' out :
  step st e = Ok st' out →
  applied_times_nonneg st (e :: es) ↔
  (∀ time, applied_control st e time → (0 <= time)%Q) ∧
  applied_times_nonneg st' es.
Proof. intros Hs. simpl. by rewrite Hs. Qed.

Lemma nonneg_prefixes_iff es : ∀ st st' out,
  nonneg_positions st → run st es = Ok st' out →
  applied_times_nonneg st es ↔
  ∀ (es1 es2 : list event) st1 out1,
    es = (es1 ++ es2)%list → run st es1 = Ok st1 out1 → nonneg_positions st1.
Proof.
  induction es as [| e es IH]; intros st st' out Hp Hrun.
  - split; [| done]. intros _ es1 es2 st1 out1 Heq.
    symmetry in Heq. apply app_eq_nil in Heq as [-> _]. simpl.
    by intros [= <- _].
  - simpl in Hrun.
    destruct (step st e) as [sta outa |] eqn:Hs; [| done].
    destruct (run sta es) as [stb outb |] eqn:Hr; [| done].
    rewrite (applied_times_cons _ _ _ _ _ Hs). split.
    + intros [Hhead Htail] es1 es2 st1 out1 Heq.
      destruct es1 as [| e1 es1]; [simpl; by intros [= <- _] |].
      simpl in Heq. injection Heq as <- Heq. simpl. rewrite Hs.
      destruct (run sta es1) as [stc outc |] eqn:Hr1; [| done].
      intros [= <- _].
      assert (nonneg_positions sta) as Hpa by by eapply nonneg_step.
      by eapply (proj1 (IH sta stb outb Hpa Hr) Htail es1 es2).
    + intros Hall.
      assert (nonneg_positions sta) as Hpa.
      { eapply (Hall [e] es); [done |]. simpl. by rewrite Hs. }
      split.
      * intros time Happ.
        destruct (applied_control_stores _ _ _ _ _ Happ Hs)
          as (rid & r' & _ & Hr' & <-).
        by eapply Hpa.
      * apply (IH sta stb outb Hpa Hr).
        intros es1 es2 st1 out1 -> Hr1.
        eapply (Hall (e :: es1) es2); [done |]. simpl. by rewrite Hs, Hr1.
Qed.

(** After the host's seek to -5 the stored position of the room is -5. *)
Lemma negative_position_counterexample :
  ∃ st out,
    run init seek_back = Ok st out ∧
    (currentTime ∘ state) <$> (rooms st !! "room-1") = Some (-5)%Q ∧
    ¬ nonneg_positions st.
Proof.
  eexists _, _. split; [vm_compute; reflexivity |].
  split; [reflexivity |].
  intros Hp. specialize (Hp "room-1" _ eq_refl). by vm_compute in Hp.
Qed.

(** C9, amended: the position of a room is 0 when the room is created; a
    [play], [pause] or [seek] that the server applies, that is, one sent by
    the current host of an existing room, stores the supplied [currentTime]
    as the position, whatever its sign; and in a run from start-up the
    position of every room is non-negative after every operation exactly
    when every control that was applied carried a [currentTime >= 0]. *)
Theorem position_nonneg_iff_applied_times es st out :
  run init es = Ok st out →
  (applied_times_nonneg init es ↔
   ∀ (es1 es2 : list event) st1 out1,
     es = (es1 ++ es2)%list → run init es1 = Ok st1 out1 →
     nonneg_positions st1) ∧
  (∀ st0 roomId v a s now r,
     rooms (fst (create st0 roomId (Some v) (Some a) s now)) !! roomId
       = Some r →
     currentTime (state r) = 0%Q) ∧
  (∀ st0 e time st1 out1,
     applied_control st0 e time → step st0 e = Ok st1 out1 →
     ∃ roomId r',
       event_room e = Some roomId ∧ rooms st1 !! roomId = Some r' ∧
       currentTime (state r') = time).
Proof.
  intros Hrun. split_and!.
  - apply (nonneg_prefixes_iff es init st out); [| done].
    intros i r H. simpl in H. by rewrite lookup_empty in H.
  - intros st0 roomId v a s now r. unfold create. simpl.
    rewrite lookup_insert_eq. by intros [= <-].
  - apply applied_control_stores.
Qed.

Lemma position_nonneg_iff_applied_times_witness :
  run init guest_pause_negative = Ok demo
    [ Emit (ToSocket "H") (Role "host");
      Emit (ToSocket "G") (Role "guest");
      Emit (ToSocket "G")
           (SyncState (Some (Playback false 0 1000)) 1002 (Some (Some "H"))) ] ∧
  applied_times_nonneg init guest_pause_negative ∧
  nonneg_positions demo.
Proof.
  assert (run init guest_pause_negative = Ok demo
            [ Emit (ToSocket "H") (Role "host");
              Emit (ToSocket "G") (Role "guest");
              Emit (ToSocket "G")
                   (SyncState (Some (Playback false 0 1000)) 1002
                              (Some (Some "H"))) ]) as Hrun
    by (vm_compute; reflexivity).
  assert (applied_times_nonneg init guest_pause_negative) as Happ.
  { unfold guest_pause_negative, session. simpl app.
    eapply applied_times_cons; [reflexivity |]. split.
    { by intros time (? & ? & ? & ? & ? & ? & _). }
    eapply applied_times_cons; [reflexivity |]. split.
    { by intros time (? & ? & ? & ? & ? & ? & _). }
    eapply applied_times_cons; [reflexivity |]. split.
    { by intros time (? & ? & ? & ? & ? & ? & _). }
    eapply applied_times_cons; [reflexivity |]. split; [| done].
    intros time (sid & rid & action & now & r & He & Hr & Hh & _).
    injection He as <- <- _ _ _. vm_compute in Hr. injection Hr as <-.
    discriminate Hh. }
  split; [exact Hrun |]. split; [exact Happ |].
  destruct (position_nonneg_iff_applied_times guest_pause_negative demo _ Hrun)
    as [Hiff _].
  eapply (proj1 Hiff Happ guest_pause_negative []);
    [by rewrite app_nil_r | exact Hrun].
Defined.

(** * Further properties of the handlers *)

(** ** Rooms with members have a host *)

Lemma first_or_null_is_Some c :
  c ≠ [] → "" ∉ c → is_Some (first_or_null c).
Proof.
  destruct c as [| x c]; [done |]. intros _ Hne.
  apply not_elem_of_cons in Hne as [Hx _]. unfold first_or_null. simpl.
  rewrite truthy_nonempty by done. by eexists.
Qed.

Lemma no_host_false h : no_host h = false → is_Some h.
Proof. destruct h; [by eexists | done]. Qed.

Lemma hosted_init : hosted init.
Proof. intros i r H. simpl in H. by rewrite lookup_empty in H. Qed.

Lemma hosted_step st e st' out :
  wf st → hosted st → step st e = Ok st' out → hosted st'.
Proof.
  intros Hwf Hh. destruct e as [rid v a s now | sid rid asHost now
                                | sid rid action time now | sid rid now | sid];
    simpl.
  - intros [= <- _]. unfold create. destruct v, a; simpl; try done.
    intros i r. simpl. rewrite lookup_insert.
    case_decide; [| apply Hh]. by intros [= <-].
  - unfold join_room.
    destruct (rooms_get (rooms st) rid) as [r | |] eqn:G;
      [| done | by intros [= <- _]].
    apply rooms_get_Own in G as Hr.
    destruct (_ && _); [by intros [= <- _] |].
    destruct asHost; simpl.
    + intros [= <- _]. intros i r'. simpl. rewrite lookup_insert.
      case_decide; [| apply Hh]. intros [= <-]. by eexists.
    + destruct (no_host (hostSocketId r)) eqn:N; intros [= <- _];
        intros i r'; simpl; rewrite lookup_insert;
        (case_decide; [| apply Hh]); intros [= <-]; simpl;
        [by eexists | intros _; by apply no_host_false].
  - unfold control.
    destruct (rooms_get (rooms st) rid) as [r | |] eqn:G;
      [| by intros [= <- _] | by intros [= <- _]].
    apply rooms_get_Own in G as Hr.
    destruct (negb _); intros [= <- _]; [done |].
    intros i r'. simpl. rewrite lookup_insert.
    case_decide; [| apply Hh]. intros [= <-]. simpl. by eapply Hh.
  - unfold request_sync.
    by destruct (rooms_get (rooms st) rid); intros [= <- _].
  - intros [= <- _]. intros i r'. rewrite lookup_leave.
    destruct (rooms st !! i) as [r |] eqn:Hr; [| done]. simpl. intros L Hc.
    destruct (wf_room _ Hwf _ _ Hr) as (Hnd & Hne & Hhost).
    destruct (leave_room_clients _ _ _ L) as [Hcl _].
    destruct (decide (sid ∈ clients r)) as [Hin | Hnin].
    + rewrite (leave_room_host _ _ _ L Hin).
      destruct (is_host sid (hostSocketId r)).
      * apply first_or_null_is_Some; [by rewrite <- Hcl |].
        rewrite elem_of_set_delete. tauto.
      * eapply Hh; [done |]. intros Hnil. rewrite Hnil in Hin.
        by apply elem_of_nil in Hin.
    + unfold leave_room in L. apply set_has_false in Hnin. rewrite Hnin in L.
      simplify_eq. by eapply Hh.
Qed.

Lemma reachable_hosted st : reachable st → hosted st.
Proof.
  induction 1 as [| st e st' out Hreach IH Hv Hs]; [apply hosted_init |].
  eapply hosted_step; [by apply reachable_wf | done | done].
Qed.

(** X1: in every state the server can reach, a room has a host exactly
    when it has at least one member, and the host is one of the members. *)
Theorem host_iff_members st roomId r :
  reachable st → rooms st !! roomId = Some r →
  (is_Some (hostSocketId r) ↔ clients r ≠ []) ∧
  (∀ h, hostSocketId r = Some h → h ∈ clients r).
Proof.
  intros Hreach Hr.
  assert (∀ h, hostSocketId r = Some h → h ∈ clients r) as Hmem.
  { intros h Hh.
    by destruct (host_is_member _ _ _ _ (reachable_wf _ Hreach) Hr Hh). }
  split; [split | done].
  - intros [h Hh] Hnil. pose proof (Hmem h Hh) as Hin.
    rewrite Hnil in Hin. by apply elem_of_nil in Hin.
  - by apply (reachable_hosted _ Hreach roomId).
Qed.

Lemma host_iff_members_witness :
  reachable demo ∧ rooms demo !! "room-1" = Some demo_room ∧
  (is_Some (hostSocketId demo_room) ↔ clients demo_room ≠ []) ∧
  (∀ h, hostSocketId demo_room = Some h → h ∈ clients demo_room).
Proof.
  split; [apply demo_reachable |]. split; [reflexivity |].
  apply (host_iff_members demo "room-1" demo_room);
    [apply demo_reachable | reflexivity].
Defined.

(** X2: in every reachable state the sockets that socket.io has in the
    room of a registry entry are exactly the members recorded in
    [room.clients], so a broadcast to that room reaches the members and
    nobody else. *)
Theorem broadcast_reaches_exactly_members st roomId r :
  reachable st → rooms st !! roomId = Some r →
  ∀ m, m ∈ recipients st (ToRoom roomId) ↔ m ∈ clients r.
Proof.
  intros Hreach Hr m.
  pose proof (wf_joined _ (reachable_wf _ Hreach) roomId m) as Hj.
  simpl. rewrite Hj. split.
  - intros (r' & Hr' & Hm). congruence.
  - eauto.
Qed.

Lemma broadcast_reaches_exactly_members_witness :
  reachable demo ∧ rooms demo !! "room-1" = Some demo_room ∧
  ∀ m, m ∈ recipients demo (ToRoom "room-1") ↔ m ∈ clients demo_room.
Proof.
  split; [apply demo_reachable |]. split; [reflexivity |].
  apply (broadcast_reaches_exactly_members demo "room-1" demo_room
           demo_reachable demo_lookup).
Defined.

(** ** What each event can and cannot change *)

(** X3: the playback state of a room changes only through a [play],
    [pause] or [seek] sent by the room's host (or when [/create] stores a
    new room under the same identifier); joins, sync requests, disconnects,
    controls from other connections or for other rooms and unrecognised
    actions leave it as it is. *)
Theorem playback_changes_only_by_host_control st e st' out roomId r r' :
  step st e = Ok st' out →
  rooms st !! roomId = Some r → rooms st' !! roomId = Some r' →
  state r' = state r ∨
  (∃ socketId action time now,
     e = Control socketId roomId action time now ∧
     hostSocketId r = Some socketId ∧
     action ∈ ["play"; "pause"; "seek"] ∧
     state r' = apply_action (state r) action time now) ∨
  (∃ v a s now, e = Create roomId v a s now).
Proof.
  intros Hs Hr Hr'.
  destruct e as [rid v a s now | sid rid asHost now
                 | sid rid action time now | sid rid now | sid];
    simpl in Hs.
  - destruct (decide (rid = roomId)) as [-> | Hne]; [right; right; eauto |].
    left. injection Hs as <- _. unfold create in Hr'.
    destruct v, a; simpl in Hr'; try congruence.
    rewrite lookup_insert_ne in Hr' by done. congruence.
  - left. unfold join_room in Hs.
    destruct (rooms_get (rooms st) rid) as [r0 | |] eqn:G;
      [| done | simplify_eq; congruence].
    apply rooms_get_Own in G as Hr0.
    destruct (_ && _); [simplify_eq; congruence |].
    destruct (asHost || _); injection Hs as <- _; simpl in Hr';
      rewrite lookup_insert in Hr'; case_decide; simplify_eq; done.
  - unfold control in Hs.
    destruct (rooms_get (rooms st) rid) as [r0 | |] eqn:G;
      [| left; simplify_eq; congruence | left; simplify_eq; congruence].
    apply rooms_get_Own in G as Hr0.
    destruct (is_host sid (hostSocketId r0)) eqn:Hhost; simpl in Hs;
      [| left; simplify_eq; congruence].
    injection Hs as <- _. simpl in Hr'. rewrite lookup_insert in Hr'.
    case_decide as Hd; [| left; congruence]. subst rid.
    assert (r0 = r) as -> by congruence. injection Hr' as <-. simpl.
    destruct (decide (action ∈ ["play"; "pause"; "seek"])) as [Ha | Ha].
    + right; left. exists sid, action, time, now. split_and!; try done.
      unfold is_host in Hhost. by apply bool_decide_eq_true in Hhost.
    + left. by apply apply_action_other.
  - left. unfold request_sync in Hs.
    destruct (rooms_get (rooms st) rid); simplify_eq; congruence.
  - left. injection Hs as <- _. rewrite lookup_leave, Hr in Hr'.
    simpl in Hr'. by destruct (leave_room_clients _ _ _ Hr') as [_ ->].
Qed.

Lemma playback_changes_only_by_host_control_witness :
  step demo (Control "G" "room-1" "pause" 15 2000) = Ok demo [] ∧
  (state demo_room = state demo_room ∨
   (∃ socketId action time now,
      Control "G" "room-1" "pause" 15 2000 =
        Control socketId "room-1" action time now ∧
      hostSocketId demo_room = Some socketId ∧
      action ∈ ["play"; "pause"; "seek"] ∧
      state demo_room = apply_action (state demo_room) action time now) ∨
   (∃ v a s now,
      Control "G" "room-1" "pause" 15 2000 = Create "room-1" v a s now)).
Proof.
  split; [reflexivity |].
  apply (playback_changes_only_by_host_control demo
           (Control "G" "room-1" "pause" 15 2000) demo [] "room-1"
           demo_room demo_room); reflexivity.
Defined.

(** X4: rooms enter the registry only through [/create] and leave it only
    on a disconnect: [join-room], [control] and [request-sync] keep the set
    of room identifiers, [disconnect] can only shrink it, and [/create]
    adds at most its own identifier. *)
Theorem registry_keys_step st e st' out :
  step st e = Ok st' out →
  match e with
  | Create roomId _ _ _ _ =>
      dom (rooms st) ⊆ dom (rooms st') ∧
      dom (rooms st') ⊆ {[ roomId ]} ∪ dom (rooms st)
  | Disconnect _ => dom (rooms st') ⊆ dom (rooms st)
  | _ => dom (rooms st') = dom (rooms st)
  end.
Proof.
  destruct e as [rid v a s now | sid rid asHost now
                 | sid rid action time now | sid rid now | sid];
    simpl.
  - intros [= <- _]. unfold create.
    destruct v, a; simpl; rewrite ?dom_insert_L; set_solver.
  - unfold join_room.
    destruct (rooms_get (rooms st) rid) as [r | |] eqn:G;
      [| done | by intros [= <- _]].
    apply rooms_get_Own in G as Hr.
    assert (rid ∈ dom (rooms st)) by (apply elem_of_dom; eauto).
    destruct (_ && _); [by intros [= <- _] |].
    destruct (asHost || _); intros [= <- _]; simpl;
      rewrite dom_insert_L; set_solver.
  - unfold control.
    destruct (rooms_get (rooms st) rid) as [r | |] eqn:G;
      [| by intros [= <- _] | by intros [= <- _]].
    apply rooms_get_Own in G as Hr.
    assert (rid ∈ dom (rooms st)) by (apply elem_of_dom; eauto).
    destruct (negb _); intros [= <- _]; [done |]. simpl.
    rewrite dom_insert_L. set_solver.
  - unfold request_sync.
    by destruct (rooms_get (rooms st) rid); intros [= <- _].
  - intros [= <- _]. intros i. rewrite !elem_of_dom, lookup_leave.
    destruct (rooms st !! i); [eauto | by intros [? ?]].
Qed.

Lemma registry_keys_step_witness :
  step solo (Disconnect "G") = Ok (leave solo "G") [] ∧
  dom (rooms (leave solo "G")) ⊆ dom (rooms solo).
Proof.
  split; [reflexivity |].
  apply (registry_keys_step solo (Disconnect "G") (leave solo "G") []).
  reflexivity.
Defined.

(** X5: an event that names a room leaves every other room of the
    registry, and the sockets joined to it, untouched. *)
Theorem other_rooms_untouched st e st' out roomId other :
  step st e = Ok st' out → event_room e = Some roomId → other ≠ roomId →
  rooms st' !! other = rooms st !! other ∧
  joined_of st' other = joined_of st other.
Proof.
  intros Hs He Hne.
  destruct e as [rid v a s now | sid rid asHost now
                 | sid rid action time now | sid rid now | sid];
    simpl in *; simplify_eq.
  - unfold create. destruct v, a; simpl; try done.
    by rewrite lookup_insert_ne.
  - unfold join_room in Hs.
    destruct (rooms_get (rooms st) roomId) as [r | |]; [| done | by simplify_eq].
    destruct (_ && _); [by simplify_eq |].
    destruct (asHost || _); injection Hs as <- _; unfold joined_of; simpl;
      by rewrite !lookup_insert_ne.
  - unfold control in Hs.
    destruct (rooms_get (rooms st) roomId) as [r | |];
      [| by simplify_eq | by simplify_eq].
    destruct (negb _); injection Hs as <- _; [done |].
    simpl. by rewrite lookup_insert_ne.
  - unfold request_sync in Hs.
    by destruct (rooms_get (rooms st) roomId); simplify_eq.
Qed.

Lemma other_rooms_untouched_witness :
  "room-2" ≠ "room-1" ∧
  ∃ st' r2,
    step two_rooms (Control "H" "room-1" "play" 10 2000) =
      Ok st' [Emit (ToRoom "room-1") (ControlMsg "play" 10 2000 true)] ∧
    rooms two_rooms !! "room-2" = Some r2 ∧
    rooms st' !! "room-2" = Some r2.
Proof.
  split; [discriminate |].
  assert ("room-2" ≠ "room-1") as Hne by discriminate.
  destruct (other_rooms_untouched two_rooms
              (Control "H" "room-1" "play" 10 2000)
              (set_room two_rooms "room-1"
                 (with_state demo_room (Playback true 10 2000)))
              [Emit (ToRoom "room-1") (ControlMsg "play" 10 2000 true)]
              "room-1" "room-2" eq_refl eq_refl Hne) as [Hsame _].
  eexists (set_room two_rooms "room-1"
             (with_state demo_room (Playback true 10 2000))), _.
  split; [reflexivity |]. split; [reflexivity |].
  rewrite Hsame. reflexivity.
Defined.

(** X6: every message a handler emits goes to the connection that sent the
    event, with one exception: a [control] message, which goes to the room
    named in the event and is emitted only when the sender is that room's
    host.  In particular a [room-error], a [role] or a [sync-state] is
    never sent to a room. *)
Theorem emissions_addressing st e st' out t p :
  step st e = Ok st' out → Emit t p ∈ out →
  (∃ socketId, event_socket e = Some socketId ∧ t = ToSocket socketId ∧
     ∀ action time now flag, p ≠ ControlMsg action time now flag) ∨
  (∃ socketId roomId action time now r,
     e = Control socketId roomId action time now ∧ t = ToRoom roomId ∧
     rooms st !! roomId = Some r ∧ hostSocketId r = Some socketId ∧
     p = ControlMsg action time now
           (playing (apply_action (state r) action time now))).
Proof.
  intros Hs Hin.
  destruct e as [rid v a s now | sid rid asHost now
                 | sid rid action time now | sid rid now | sid];
    simpl in Hs.
  - injection Hs as _ <-. by apply elem_of_nil in Hin.
  - left. exists sid. unfold join_room in Hs.
    destruct (rooms_get (rooms st) rid) as [r | |]; [| done |].
    + destruct (_ && _); [| destruct (asHost || _)]; injection Hs as _ <-;
        rewrite ?elem_of_cons in Hin;
        repeat (destruct Hin as [Hin | Hin]; [by simplify_eq |]);
        by apply elem_of_nil in Hin.
    + injection Hs as _ <-. rewrite elem_of_cons in Hin.
      destruct Hin as [Hin | Hin]; [by simplify_eq |].
      by apply elem_of_nil in Hin.
  - unfold control in Hs.
    destruct (rooms_get (rooms st) rid) as [r | |] eqn:G;
      [| injection Hs as _ <-; by apply elem_of_nil in Hin
       | injection Hs as _ <-; by apply elem_of_nil in Hin].
    apply rooms_get_Own in G as Hr.
    destruct (is_host sid (hostSocketId r)) eqn:Hhost; simpl in Hs;
      [| injection Hs as _ <-; by apply elem_of_nil in Hin].
    injection Hs as _ <-. apply list_elem_of_singleton in Hin.
    right. exists sid, rid, action, time, now, r. simplify_eq.
    split_and!; try done.
    unfold is_host in Hhost. by apply bool_decide_eq_true in Hhost.
  - left. exists sid. unfold request_sync in Hs.
    destruct (rooms_get (rooms st) rid); injection Hs as _ <-;
      rewrite ?elem_of_cons in Hin;
      repeat (destruct Hin as [Hin | Hin]; [by simplify_eq |]);
      by apply elem_of_nil in Hin.
  - injection Hs as _ <-. by apply elem_of_nil in Hin.
Qed.

Lemma emissions_addressing_witness :
  step solo (JoinRoom "K" "room-1" false 3000) =
    Ok (set_room (socket_join solo "K" "room-1") "room-1"
          (with_clients solo_room ["G"; "K"]))
       [Emit (ToSocket "K") (Role "guest");
        Emit (ToSocket "K")
             (SyncState (Some (Playback false 0 1000)) 3000
                        (Some (Some "G")))] ∧
  ∃ socketId,
    event_socket (JoinRoom "K" "room-1" false 3000) = Some socketId ∧
    ToSocket "K" = ToSocket socketId.
Proof.
  split; [reflexivity |].
  destruct (emissions_addressing solo (JoinRoom "K" "room-1" false 3000)
              _ _ (ToSocket "K") (Role "guest") eq_refl)
    as [(socketId & He & Ht & _) | (? & ? & ? & ? & ? & ? & He & _)].
  - apply list_elem_of_here.
  - by exists socketId.
  - discriminate He.
Defined.

(** ** More on [disconnect] *)

(** X7: after a disconnect the connection is a member of no room and is
    joined to no socket.io room, whatever number of rooms it was in. *)
Theorem leave_removes_everywhere st socketId roomId :
  (socketId ∉ joined_of (leave st socketId) roomId) ∧
  ∀ r, rooms (leave st socketId) !! roomId = Some r → socketId ∉ clients r.
Proof.
  split.
  - rewrite joined_of_leave. set_solver.
  - intros r. rewrite lookup_leave.
    destruct (rooms st !! roomId) as [r0 |]; [| done]. simpl. intros L.
    destruct (leave_room_clients _ _ _ L) as [-> _].
    rewrite elem_of_set_delete. tauto.
Qed.

(** X8: the disconnect of a connection that is a member of no room changes
    nothing in a well-formed server state. *)
Theorem leave_stranger_noop st socketId :
  wf st → stranger st socketId → leave st socketId = st.
Proof.
  intros Hwf Hs. destruct st as [m j]. unfold leave. simpl. f_equal.
  - apply map_eq. intros i. rewrite lookup_omap.
    destruct (m !! i) as [r |] eqn:Hr; [| done]. simpl.
    unfold leave_room.
    pose proof (Hs i r Hr) as Hnin. apply set_has_false in Hnin.
    by rewrite Hnin.
  - apply map_eq. intros i. rewrite lookup_fmap.
    destruct (j !! i) as [s |] eqn:Hj; [| done]. simpl. f_equal.
    assert (socketId ∉ s) as Hnin; [| set_solver].
    intros Hin.
    assert (socketId ∈ joined_of (Server m j) i) as Hin'
      by (unfold joined_of; simpl; by rewrite Hj).
    apply (wf_joined _ Hwf) in Hin' as (r & Hr & Hc).
    by apply (Hs i r Hr).
Qed.

Lemma leave_stranger_noop_witness :
  wf demo ∧ stranger demo "X" ∧ leave demo "X" = demo.
Proof.
  assert (stranger demo "X") as Hs.
  { intros i r Hr. unfold demo in Hr. simpl in Hr.
    apply lookup_singleton_Some in Hr as [_ <-]. by_eval. }
  split; [apply demo_wf |]. split; [exact Hs |].
  apply (leave_stranger_noop demo "X" demo_wf Hs).
Defined.

Lemma set_delete_nil_inv c x :
  NoDup c → x ∈ c → set_delete c x = [] → c = [x].
Proof.
  intros Hnd Hin Hnil.
  assert (∀ y, y ∈ c → y = x) as Hall.
  { intros y Hy. destruct (decide (y = x)) as [-> | Hne]; [done |].
    assert (y ∈ set_delete c x) as Hy' by by apply elem_of_set_delete.
    rewrite Hnil in Hy'. by apply elem_of_nil in Hy'. }
  destruct c as [| a [| b c]].
  - by apply elem_of_nil in Hin.
  - f_equal. apply Hall, list_elem_of_here.
  - apply NoDup_cons in Hnd as [Hab _]. exfalso. apply Hab.
    rewrite (Hall a) by apply list_elem_of_here.
    rewrite (Hall b) at 1 by (apply list_elem_of_further, list_elem_of_here).
    apply list_elem_of_here.
Qed.

(** X9: a disconnect deletes a room exactly when the disconnecting
    connection was its only member.  A room that nobody has joined, or
    that keeps another member, stays in the registry. *)
Theorem room_deleted_iff st socketId roomId r :
  wf st → rooms st !! roomId = Some r →
  rooms (leave st socketId) !! roomId = None ↔ clients r = [socketId].
Proof.
  intros Hwf Hr. rewrite lookup_leave, Hr. simpl.
  rewrite leave_room_None.
  destruct (wf_room _ Hwf _ _ Hr) as (Hnd & _ & _). split.
  - intros [Hin Hnil]. by apply set_delete_nil_inv.
  - intros ->. split; [apply list_elem_of_here |].
    unfold set_delete. by rewrite filter_cons_False by (intros ?; done).
Qed.

Lemma room_deleted_iff_witness :
  wf demo ∧ rooms demo !! "room-1" = Some demo_room ∧
  (rooms (leave demo "G") !! "room-1" = None ↔ clients demo_room = ["G"]).
Proof.
  split; [apply demo_wf |]. split; [reflexivity |].
  apply (room_deleted_iff demo "G" "room-1" demo_room demo_wf).
  reflexivity.
Defined.

(** X10: when a member other than the host disconnects, the room stays
    with the same host and the same playback state, and loses exactly that
    member: read back from the registry, its host and state are as before
    and its members are the previous ones without the one that left. *)
Theorem guest_leaves_host_stays st roomId r h g :
  wf st → rooms st !! roomId = Some r → hostSocketId r = Some h →
  g ∈ clients r → g ≠ h →
  rooms (leave st g) !! roomId =
    Some (with_clients r (set_delete (clients r) g)) ∧
  ∃ r',
    rooms (leave st g) !! roomId = Some r' ∧
    hostSocketId r' = Some h ∧ state r' = state r ∧
    (∀ m, m ∈ clients r' ↔ m ∈ clients r ∧ m ≠ g).
Proof.
  intros Hwf Hr Hh Hg Hne.
  assert (rooms (leave st g) !! roomId =
          Some (with_clients r (set_delete (clients r) g))) as Hleft.
  { rewrite lookup_leave, Hr. simpl.
    destruct (host_is_member _ _ _ _ Hwf Hr Hh) as [Hin _].
    unfold leave_room. apply set_has_true in Hg as Hhas. rewrite Hhas.
    unfold is_host. rewrite bool_decide_eq_false_2 by congruence.
    assert (h ∈ set_delete (clients r) g) as Hrem
      by (apply elem_of_set_delete; split; [done | congruence]).
    destruct (set_delete (clients r) g) eqn:D;
      [by apply elem_of_nil in Hrem |].
    by destruct r. }
  split; [exact Hleft |].
  eexists. split; [exact Hleft |]. simpl.
  split_and!; [done | done |]. intros m. apply elem_of_set_delete.
Qed.

Lemma guest_leaves_host_stays_witness :
  wf demo ∧ rooms demo !! "room-1" = Some demo_room ∧
  ∃ r',
    rooms (leave demo "G") !! "room-1" = Some r' ∧
    hostSocketId r' = Some "H" ∧ state r' = state demo_room ∧
    (∀ m, m ∈ clients r' ↔ m ∈ clients demo_room ∧ m ≠ "G").
Proof.
  split; [apply demo_wf |]. split; [reflexivity |].
  assert ("G" ∈ clients demo_room) as Hg by by_eval.
  destruct (guest_leaves_host_stays demo "room-1" demo_room "H" "G" demo_wf
              demo_lookup eq_refl Hg) as [_ Hread]; [discriminate |].
  exact Hread.
Defined.

(** ** More on [join-room] *)

(** X11: any connection that is admitted with [asHost] set takes the host
    role from the current host: the room read back afterwards has it as
    host; from then on the previous host's [control] events are dropped and
    the new host's are applied, stored in the room and broadcast. *)
Theorem host_seizure st roomId r h g now action time now' :
  rooms st !! roomId = Some r → hostSocketId r = Some h → g ≠ h →
  (length (clients r) < 2)%nat ∨ g ∈ clients r →
  let r1 := with_host (with_clients r (set_add (clients r) g)) (Some g) in
  let st1 := set_room (socket_join st g roomId) roomId r1 in
  join_room st g roomId true now =
    Ok st1 [Emit (ToSocket g) (Role "host")] ∧
  control st1 h roomId action time now' = Ok st1 [] ∧
  control st1 g roomId action time now' =
    Ok (set_room st1 roomId
          (with_state r1 (apply_action (state r) action time now')))
       [Emit (ToRoom roomId)
             (ControlMsg action time now'
                (playing (apply_action (state r) action time now')))] ∧
  (∃ r1', rooms st1 !! roomId = Some r1' ∧ hostSocketId r1' = Some g ∧
          state r1' = state r) ∧
  (∃ st2 r2,
     control st1 g roomId action time now' =
       Ok st2 [Emit (ToRoom roomId)
                    (ControlMsg action time now' (playing (state r2)))] ∧
     rooms st2 !! roomId = Some r2 ∧ hostSocketId r2 = Some g ∧
     state r2 = apply_action (state r) action time now').
Proof.
  intros Hr Hh Hne Hadm r1 st1.
  assert (rooms st1 !! roomId = Some r1) as Hr1
    by (unfold st1; simpl; apply lookup_insert_eq).
  assert (control st1 g roomId action time now' =
          Ok (set_room st1 roomId
                (with_state r1 (apply_action (state r) action time now')))
             [Emit (ToRoom roomId)
                   (ControlMsg action time now'
                      (playing (apply_action (state r) action time now')))])
    as Hnew by by rewrite (control_by_host st1 g roomId r1 action time now' Hr1).
  split_and!.
  - by rewrite (join_room_admitted _ _ _ _ _ _ Hr Hadm).
  - unfold control. rewrite (rooms_get_own _ _ _ Hr1).
    unfold is_host. simpl. by rewrite bool_decide_eq_false_2 by congruence.
  - exact Hnew.
  - by exists r1.
  - eexists _, (with_state r1 (apply_action (state r) action time now')).
    split; [exact Hnew |]. split; [simpl; apply lookup_insert_eq | done].
Qed.

Lemma host_seizure_witness :
  rooms demo !! "room-1" = Some demo_room ∧
  join_room demo "G" "room-1" true 3000 =
    Ok (set_room (socket_join demo "G" "room-1") "room-1"
          (with_host demo_room (Some "G")))
       [Emit (ToSocket "G") (Role "host")] ∧
  control (set_room (socket_join demo "G" "room-1") "room-1"
             (with_host demo_room (Some "G")))
          "H" "room-1" "pause" 15 3001 =
    Ok (set_room (socket_join demo "G" "room-1") "room-1"
          (with_host demo_room (Some "G"))) [] ∧
  ∃ st2 r2,
    control (set_room (socket_join demo "G" "room-1") "room-1"
               (with_host demo_room (Some "G")))
            "G" "room-1" "pause" 15 3001 =
      Ok st2 [Emit (ToRoom "room-1")
                   (ControlMsg "pause" 15 3001 (playing (state r2)))] ∧
    rooms st2 !! "room-1" = Some r2 ∧ hostSocketId r2 = Some "G" ∧
    state r2 = Playback false 15 3001.
Proof.
  split; [reflexivity |].
  assert ("G" ≠ "H") as Hne by discriminate.
  assert ((length (clients demo_room) < 2)%nat ∨ "G" ∈ clients demo_room)
    as Hadm by (right; by_eval).
  destruct (host_seizure demo "room-1" demo_room "H" "G" 3000 "pause" 15 3001
              demo_lookup eq_refl Hne Hadm)
    as (Hjoin & Hold & _ & _ & Hread).
  split; [exact Hjoin |]. split; [exact Hold |]. exact Hread.
Defined.

Lemma set_add_member c x : x ∈ c → set_add c x = c.
Proof. intros Hin. unfold set_add. apply set_has_true in Hin. by rewrite Hin. Qed.

Lemma with_clients_id r : with_clients r (clients r) = r.
Proof. by destruct r. Qed.

Lemma socket_join_member st socketId roomId r :
  wf st → rooms st !! roomId = Some r → socketId ∈ clients r →
  socket_join st socketId roomId = st.
Proof.
  intros Hwf Hr Hin. destruct st as [m j]. unfold socket_join. simpl. f_equal.
  assert (socketId ∈ joined_of (Server m j) roomId) as Hj
    by (apply (wf_joined _ Hwf); eauto).
  unfold joined_of in *. simpl in *.
  destruct (j !! roomId) as [s |] eqn:E; simpl in *;
    [| by apply not_elem_of_empty in Hj].
  apply insert_id. rewrite E. f_equal. set_solver.
Qed.

(** X12: a [join-room] from a connection that is already a member of a
    hosted room, sent without [asHost], changes nothing on the server, also
    when the room is full; the connection is answered [role: guest] and the
    current snapshot.  This includes the host itself: it is told [guest]
    while it remains the room's host. *)
Theorem rejoin_changes_nothing st socketId roomId r h now :
  wf st → rooms st !! roomId = Some r → socketId ∈ clients r →
  hostSocketId r = Some h →
  join_room st socketId roomId false now =
  Ok st [Emit (ToSocket socketId) (Role "guest");
         Emit (ToSocket socketId)
              (SyncState (Some (state r)) now (Some (Some h)))].
Proof.
  intros Hwf Hr Hin Hh.
  destruct (host_is_member _ _ _ _ Hwf Hr Hh) as [_ Hne].
  rewrite (join_room_admitted _ _ _ _ _ _ Hr (or_intror Hin)). simpl.
  rewrite Hh. simpl. rewrite (truthy_nonempty _ Hne). simpl.
  rewrite (set_add_member _ _ Hin), with_clients_id.
  rewrite (socket_join_member _ _ _ _ Hwf Hr Hin).
  by rewrite (set_room_id _ _ _ Hr).
Qed.

Lemma rejoin_changes_nothing_witness :
  wf demo ∧ rooms demo !! "room-1" = Some demo_room ∧
  join_room demo "H" "room-1" false 3000 =
  Ok demo [Emit (ToSocket "H") (Role "guest");
           Emit (ToSocket "H")
                (SyncState (Some (Playback false 0 1000)) 3000
                           (Some (Some "H")))].
Proof.
  split; [apply demo_wf |]. split; [reflexivity |].
  assert ("H" ∈ clients demo_room) as Hin by by_eval.
  apply (rejoin_changes_nothing demo "H" "room-1" demo_room "H" 3000
           demo_wf demo_lookup Hin).
  reflexivity.
Defined.

Lemma set_delete_set_add c x : x ∉ c → set_delete (set_add c x) x = c.
Proof.
  intros Hnin. unfold set_add. apply set_has_false in Hnin as Hf.
  rewrite Hf. unfold set_delete. rewrite filter_app.
  rewrite filter_cons_False by (intros ?; done). rewrite filter_nil, app_nil_r.
  by apply set_delete_absent.
Qed.

(** X13: joining as a guest and then disconnecting is a round trip: when
    a connection that is in no room joins a hosted room without [asHost]
    and then disconnects, the server is back in the state before the
    join. *)
Theorem guest_join_leave_roundtrip st socketId roomId r h now :
  wf st → stranger st socketId →
  rooms st !! roomId = Some r → hostSocketId r = Some h →
  (length (clients r) < 2)%nat →
  ∃ st1,
    join_room st socketId roomId false now =
      Ok st1 [Emit (ToSocket socketId) (Role "guest");
              Emit (ToSocket socketId)
                   (SyncState (Some (state r)) now (Some (Some h)))] ∧
    disconnect st1 socketId = Ok st [].
Proof.
  intros Hwf Hs Hr Hh Hlt.
  destruct (host_is_member _ _ _ _ Hwf Hr Hh) as [Hhin Hhne].
  pose proof (Hs _ _ Hr) as Hnin.
  assert (h ≠ socketId) as Hneq by (intros ->; done).
  eexists. split.
  { rewrite (join_room_admitted _ _ _ _ _ _ Hr (or_introl Hlt)). simpl.
    rewrite Hh. simpl. rewrite (truthy_nonempty _ Hhne). simpl. reflexivity. }
  unfold disconnect. f_equal.
  assert (leave_room socketId
            (with_clients r (set_add (clients r) socketId)) = Some r) as Hback.
  { unfold leave_room. simpl.
    assert (set_has (set_add (clients r) socketId) socketId = true) as ->
      by (apply set_has_true, elem_of_set_add; by left).
    rewrite (set_delete_set_add _ _ Hnin).
    unfold is_host. rewrite Hh, bool_decide_eq_false_2 by congruence.
    destruct (clients r) eqn:E; [by apply elem_of_nil in Hhin |]. simpl.
    rewrite <- E, <- Hh. by destruct r. }
  destruct st as [m j]. unfold leave, set_room, socket_join. simpl in *.
  f_equal.
  - apply map_eq. intros i. rewrite lookup_omap, lookup_insert.
    case_decide as Hd.
    + subst i. simpl. by rewrite Hback, Hr.
    + destruct (m !! i) as [r' |] eqn:Hr'; [| done]. simpl.
      unfold leave_room. pose proof (Hs i r' Hr') as Hn.
      apply set_has_false in Hn. by rewrite Hn.
  - assert (∀ i s, j !! i = Some s → socketId ∉ s) as Hfree.
    { intros i s Hj Hin.
      assert (socketId ∈ joined_of (Server m j) i) as Hin'
        by (unfold joined_of; simpl; by rewrite Hj).
      apply (wf_joined _ Hwf) in Hin' as (r' & Hr' & Hc).
      by apply (Hs i r' Hr'). }
    apply map_eq. intros i. rewrite lookup_fmap, lookup_insert.
    case_decide as Hd.
    + subst i. simpl.
      assert (h ∈ joined_of (Server m j) roomId) as Hj
        by (apply (wf_joined _ Hwf); eauto).
      unfold joined_of in *. simpl in *.
      destruct (j !! roomId) as [s |] eqn:E; simpl in *;
        [| by apply not_elem_of_empty in Hj].
      f_equal. pose proof (Hfree _ _ E). set_solver.
    + destruct (j !! i) as [s |] eqn:E; [| done]. simpl. f_equal.
      pose proof (Hfree _ _ E). set_solver.
Qed.

Lemma guest_join_leave_roundtrip_witness :
  wf solo ∧ stranger solo "K" ∧
  ∃ st1,
    join_room solo "K" "room-1" false 3000 =
      Ok st1 [Emit (ToSocket "K") (Role "guest");
              Emit (ToSocket "K")
                   (SyncState (Some (Playback false 0 1000)) 3000
                              (Some (Some "G")))] ∧
    disconnect st1 "K" = Ok solo [].
Proof.
  assert (stranger solo "K") as Hs.
  { intros i r Hr. unfold solo in Hr. simpl in Hr.
    apply lookup_singleton_Some in Hr as [_ <-]. by_eval. }
  split; [apply solo_wf |]. split; [exact Hs |].
  apply (guest_join_leave_roundtrip solo "K" "room-1" solo_room "G" 3000
           solo_wf Hs); [reflexivity | reflexivity | simpl; lia].
Defined.

(** ** Snapshots *)

(** X14: what the host last set is what everybody is told afterwards:
    after a [control] from the host, a [request-sync] from any connection
    and a guest [join-room] from a new connection both carry the playback
    state that the control stored, whose [playing] flag is the one that was
    broadcast, together with the host's identifier. *)
Theorem snapshot_after_control st roomId r h action time now socketId now' :
  wf st → rooms st !! roomId = Some r → hostSocketId r = Some h →
  let s1 := apply_action (state r) action time now in
  let st1 := set_room st roomId (with_state r s1) in
  control st h roomId action time now =
    Ok st1 [Emit (ToRoom roomId) (ControlMsg action time now (playing s1))] ∧
  request_sync st1 socketId roomId now' =
    Ok st1 [Emit (ToSocket socketId)
                 (SyncState (Some s1) now' (Some (Some h)))] ∧
  ((length (clients r) < 2)%nat →
   ∃ st2,
     join_room st1 socketId roomId false now' =
     Ok st2 [Emit (ToSocket socketId) (Role "guest");
             Emit (ToSocket socketId)
                  (SyncState (Some s1) now' (Some (Some h)))]).
Proof.
  intros Hwf Hr Hh s1 st1.
  destruct (host_is_member _ _ _ _ Hwf Hr Hh) as [_ Hne].
  assert (rooms st1 !! roomId = Some (with_state r s1)) as Hr1
    by (unfold st1; simpl; apply lookup_insert_eq).
  split_and!.
  - by rewrite (control_by_host _ _ _ _ _ _ _ Hr Hh).
  - destruct (request_sync_existing st1 socketId roomId _ now' Hr1) as [-> _].
    simpl. by rewrite Hh.
  - intros Hlt. eexists.
    rewrite (join_room_admitted st1 socketId roomId _ false now' Hr1
               (or_introl Hlt)).
    simpl. rewrite Hh. simpl. by rewrite (truthy_nonempty _ Hne).
Qed.

Lemma snapshot_after_control_witness :
  wf demo ∧ rooms demo !! "room-1" = Some demo_room ∧
  request_sync
    (set_room demo "room-1" (with_state demo_room (Playback true 10 2000)))
    "G" "room-1" 2500 =
  Ok (set_room demo "room-1" (with_state demo_room (Playback true 10 2000)))
     [Emit (ToSocket "G")
           (SyncState (Some (Playback true 10 2000)) 2500 (Some (Some "H")))].
Proof.
  split; [apply demo_wf |]. split; [reflexivity |].
  destruct (snapshot_after_control demo "room-1" demo_room "H" "play" 10 2000
              "G" 2500 demo_wf demo_lookup eq_refl) as (_ & Hsync & _).
  exact Hsync.
Defined.

(** ** Timestamps *)

Lemma apply_action_lastUpdate s action time now :
  lastUpdate (apply_action s action time now) = now ∨
  lastUpdate (apply_action s action time now) = lastUpdate s.
Proof.
  unfold apply_action.
  destruct (String.eqb action "play"); [by left |].
  destruct (String.eqb action "pause"); [by left |].
  destruct (String.eqb action "seek"); [by left | by right].
Qed.

Lemma last_update_step T st e st' out :
  (∀ roomId r, rooms st !! roomId = Some r → (lastUpdate (state r) ≤ T)%Z) →
  (∀ now, event_time e = Some now → (now ≤ T)%Z) →
  step st e = Ok st' out →
  ∀ roomId r, rooms st' !! roomId = Some r → (lastUpdate (state r) ≤ T)%Z.
Proof.
  intros Hp Ht.
  destruct e as [rid v a s now | sid rid asHost now
                 | sid rid action time now | sid rid now | sid];
    simpl.
  - intros [= <- _]. unfold create.
    destruct v, a; simpl; try done.
    intros i r. simpl. rewrite lookup_insert.
    case_decide; [| apply Hp]. intros [= <-]. simpl. by apply Ht.
  - unfold join_room.
    destruct (rooms_get (rooms st) rid) as [r | |] eqn:G;
      [| done | by intros [= <- _]].
    apply rooms_get_Own in G as Hr.
    destruct (_ && _); [by intros [= <- _] |].
    destruct (asHost || _); intros [= <- _]; intros i r'; simpl;
      rewrite lookup_insert; (case_decide; [| apply Hp]); intros [= <-];
      simpl; by eapply Hp.
  - unfold control.
    destruct (rooms_get (rooms st) rid) as [r | |] eqn:G;
      [| by intros [= <- _] | by intros [= <- _]].
    apply rooms_get_Own in G as Hr.
    destruct (negb _); intros [= <- _]; [done |].
    intros i r'. simpl. rewrite lookup_insert.
    case_decide; [| apply Hp]. intros [= <-]. simpl.
    destruct (apply_action_lastUpdate (state r) action time now) as [-> | ->];
      [by apply Ht | by eapply Hp].
  - unfold request_sync.
    by destruct (rooms_get (rooms st) rid); intros [= <- _].
  - intros [= <- _]. intros i r'. rewrite lookup_leave.
    destruct (rooms st !! i) as [r |] eqn:Hr; [| done]. simpl. intros L.
    destruct (leave_room_clients _ _ _ L) as [_ ->]. by eapply Hp.
Qed.

(** X15: no room carries a [lastUpdate] later than the events handled so
    far: if every event of a run from start-up is handled at a time not
    after [T], then [lastUpdate <= T] in every room. *)
Theorem last_update_not_in_future T es st out :
  times_le T es → run init es = Ok st out →
  ∀ roomId r, rooms st !! roomId = Some r → (lastUpdate (state r) ≤ T)%Z.
Proof.
  intros Ht Hrun.
  assert (∀ es st0 st1 out1,
            (∀ roomId r, rooms st0 !! roomId = Some r →
                         (lastUpdate (state r) ≤ T)%Z) →
            times_le T es → run st0 es = Ok st1 out1 →
            ∀ roomId r, rooms st1 !! roomId = Some r →
                        (lastUpdate (state r) ≤ T)%Z) as Hgen.
  { clear. induction es as [| e es IH]; intros st0 st1 out1 Hp Ht; simpl.
    - by intros [= <- _].
    - destruct (step st0 e) as [st' out' |] eqn:Hs; [| done].
      destruct (run st' es) as [st'' out'' |] eqn:Hr; [| done].
      intros [= <- _]. eapply (IH st'); [| | done].
      + eapply last_update_step; [done | | done].
        intros now Hnow. eapply Ht; [apply list_elem_of_here | done].
      + intros e' now Hin. eapply Ht. by apply list_elem_of_further. }
  eapply (Hgen es init); [| done | done].
  intros i r H. simpl in H. by rewrite lookup_empty in H.
Qed.

Lemma last_update_not_in_future_witness :
  times_le 1003 play_at_ten ∧
  ∀ roomId r,
    rooms (set_room demo "room-1"
             (with_state demo_room (Playback true 10 1003))) !! roomId
      = Some r →
    (lastUpdate (state r) ≤ 1003)%Z.
Proof.
  assert (times_le 1003 play_at_ten) as Ht.
  { intros e now Hin He. unfold play_at_ten, session in Hin. simpl in Hin.
    rewrite !elem_of_cons in Hin.
    destruct Hin as [-> | [-> | [-> | [-> | Hin]]]];
      [injection He as <-; lia .. | by apply elem_of_nil in Hin]. }
  split; [exact Ht |].
  apply (last_update_not_in_future 1003 play_at_ten _
           [ Emit (ToSocket "H") (Role "host");
             Emit (ToSocket "G") (Role "guest");
             Emit (ToSocket "G")
                  (SyncState (Some (Playback false 0 1000)) 1002
                             (Some (Some "H")));
             Emit (ToRoom "room-1") (ControlMsg "play" 10 1003 true) ] Ht).
  vm_compute. reflexivity.
Defined.

(** ** The room page *)

(** X16: creating a room and opening its page is a round trip: with both
    a video and an art file, [/create] redirects to [/room/<roomId>], and
    that page is rendered with the two files under [/uploads/] and with the
    subtitle file under [/uploads/] if one was sent, [null] otherwise. *)
Theorem view_created_room st roomId v a s now :
  create st roomId (Some v) (Some a) s now =
    (fst (create st roomId (Some v) (Some a) s now),
     Redirect ("/room/" ++ roomId)) ∧
  room_view (fst (create st roomId (Some v) (Some a) s now)) roomId =
    RenderRoom roomId (Some ("/uploads/" ++ v)) (Some ("/uploads/" ++ a))
               (Some ((λ x, "/uploads/" ++ x) <$> s)).
Proof.
  split; [done |]. unfold room_view, create. simpl.
  rewrite (rooms_get_own _ _ _ (lookup_insert_eq _ _ _)). simpl.
  by destruct s.
Qed.

(** X17: the room page answers 404 exactly when the identifier is neither
    a room of the registry nor a property name of [Object.prototype]; for
    such a name (["constructor"], ["toString"], ...) that is not a room the
    page is rendered with every asset path [undefined]. *)
Theorem view_not_found_iff st roomId :
  (room_view st roomId = NotFound "Room not found or expired." ↔
   rooms st !! roomId = None ∧ roomId ∉ object_prototype_keys) ∧
  (rooms st !! roomId = None → roomId ∈ object_prototype_keys →
   room_view st roomId = RenderRoom roomId None None None).
Proof.
  unfold room_view, rooms_get. split.
  - destruct (rooms st !! roomId); [naive_solver |].
    case_bool_decide; naive_solver.
  - intros -> Hk. by rewrite bool_decide_eq_true_2.
Qed.

Lemma assets_step st e st' out roomId r r' :
  step st e = Ok st' out →
  (∀ v a s now, e ≠ Create roomId v a s now) →
  rooms st !! roomId = Some r → rooms st' !! roomId = Some r' →
  videoPath r' = videoPath r ∧ artPath r' = artPath r ∧
  subtitlePath r' = subtitlePath r.
Proof.
  intros Hs Hcreate Hr Hr'.
  destruct e as [rid v a s now | sid rid asHost now
                 | sid rid action time now | sid rid now | sid];
    simpl in Hs.
  - injection Hs as <- _. unfold create in Hr'.
    destruct v, a; simpl in Hr'; try (by simplify_eq).
    rewrite lookup_insert_ne in Hr'; [by simplify_eq |].
    intros ->. by eapply Hcreate.
  - unfold join_room in Hs.
    destruct (rooms_get (rooms st) rid) as [r0 | |] eqn:G;
      [| done | by simplify_eq].
    apply rooms_get_Own in G as Hr0.
    destruct (_ && _); [by simplify_eq |].
    destruct (asHost || _); injection Hs as <- _; simpl in Hr';
      rewrite lookup_insert in Hr'; case_decide; by simplify_eq.
  - unfold control in Hs.
    destruct (rooms_get (rooms st) rid) as [r0 | |] eqn:G;
      [| by simplify_eq | by simplify_eq].
    apply rooms_get_Own in G as Hr0.
    destruct (negb _); injection Hs as <- _; [by simplify_eq |].
    simpl in Hr'. rewrite lookup_insert in Hr'. case_decide; by simplify_eq.
  - unfold request_sync in Hs.
    destruct (rooms_get (rooms st) rid); by simplify_eq.
  - injection Hs as <- _. rewrite lookup_leave, Hr in Hr'. simpl in Hr'.
    unfold leave_room in Hr'. destruct (set_has _ _); [| by simplify_eq].
    destruct (length _ =? 0)%nat; by simplify_eq.
Qed.

(** X18: the assets of a room never change: as long as the room is in the
    registry, its page is rendered with the same paths before and after any
    socket event (and any [/create] of another room). *)
Theorem room_page_stable st e st' out roomId r r' :
  step st e = Ok st' out →
  (∀ v a s now, e ≠ Create roomId v a s now) →
  rooms st !! roomId = Some r → rooms st' !! roomId = Some r' →
  room_view st' roomId = room_view st roomId.
Proof.
  intros Hs Hc Hr Hr'.
  destruct (assets_step _ _ _ _ _ _ _ Hs Hc Hr Hr') as (Hv & Ha & Hsub).
  unfold room_view.
  rewrite (rooms_get_own _ _ _ Hr), (rooms_get_own _ _ _ Hr').
  by rewrite Hv, Ha, Hsub.
Qed.

Lemma room_page_stable_witness :
  step demo (Disconnect "H") = Ok (leave demo "H") [] ∧
  rooms demo !! "room-1" = Some demo_room ∧
  rooms (leave demo "H") !! "room-1" = Some solo_room ∧
  room_view (leave demo "H") "room-1" = room_view demo "room-1".
Proof.
  split; [reflexivity |]. split; [reflexivity |]. split; [reflexivity |].
  apply (room_page_stable demo (Disconnect "H") (leave demo "H") [] "room-1"
           demo_room solo_room); [reflexivity | discriminate | reflexivity
                                 | reflexivity].
Defined.

(** ** Errors and exceptions *)

(** X19: among the events that carry a payload of the wire contract (see
    [event]), the handler throws exactly for a [join-room] that names a
    property of [Object.prototype] which is not a room (the handler reads
    [room.clients.size] of the inherited value); every other such event,
    and every other [join-room], is handled to the end. *)
Theorem step_throws_iff st e :
  (∃ err, step st e = Uncaught err) ↔
  ∃ socketId roomId asHost now,
    e = JoinRoom socketId roomId asHost now ∧
    rooms st !! roomId = None ∧ roomId ∈ object_prototype_keys.
Proof.
  split.
  - intros [err Hs].
    destruct e as [rid v a s now | sid rid asHost now
                   | sid rid action time now | sid rid now | sid];
      simpl in Hs; try done.
    + exists sid, rid, asHost, now. split; [done |].
      unfold join_room, rooms_get in Hs.
      destruct (rooms st !! rid) as [r |].
      * destruct (_ && _); [done |]. by destruct (asHost || _).
      * by case_bool_decide.
    + unfold control in Hs. destruct (rooms_get _ _); [| done | done].
      by destruct (negb _).
    + unfold request_sync in Hs. by destruct (rooms_get _ _).
  - intros (sid & rid & asHost & now & -> & Hr & Hk). simpl.
    unfold join_room. rewrite (rooms_get_proto _ _ Hr Hk). by eexists.
Qed.

(** X20: a [join-room] is answered with a [room-error] in exactly two
    cases: the identifier reads as [undefined] in the registry, or it is a
    room with two or more members of which the connection is not one; in
    both cases the server state is unchanged and the error is the only
    message. *)
Theorem join_error_iff st socketId roomId asHost now :
  (signals_error (join_room st socketId roomId asHost now) socketId ↔
   (rooms st !! roomId = None ∧ roomId ∉ object_prototype_keys) ∨
   (∃ r, rooms st !! roomId = Some r ∧ (2 ≤ length (clients r))%nat ∧
         socketId ∉ clients r)) ∧
  (signals_error (join_room st socketId roomId asHost now) socketId →
   ∃ message,
     join_room st socketId roomId asHost now =
     Ok st [Emit (ToSocket socketId) (RoomError message)]).
Proof.
  assert (signals_error (join_room st socketId roomId asHost now) socketId →
          ((rooms st !! roomId = None ∧ roomId ∉ object_prototype_keys) ∨
           (∃ r, rooms st !! roomId = Some r ∧ (2 ≤ length (clients r))%nat ∧
                 socketId ∉ clients r)) ∧
          ∃ message,
            join_room st socketId roomId asHost now =
            Ok st [Emit (ToSocket socketId) (RoomError message)]) as Hfwd.
  { intros (st' & out & msg & Hres & Hin).
    unfold join_room, rooms_get in *.
    destruct (rooms st !! roomId) as [r |] eqn:Hr.
    - destruct ((2 <=? length (clients r))%nat
                && negb (set_has (clients r) socketId)) eqn:Hfull.
      + split; [| by eexists]. right. exists r.
        apply andb_true_iff in Hfull as [Hlen Hhas].
        apply Nat.leb_le in Hlen. apply negb_true_iff, set_has_false in Hhas.
        done.
      + exfalso. destruct (asHost || _); injection Hres as _ <-;
          rewrite ?elem_of_cons in Hin;
          repeat (destruct Hin as [Hin | Hin]; [by simplify_eq |]);
          by apply elem_of_nil in Hin.
    - case_bool_decide; [done |]. split; [by left | by eexists]. }
  split; [split |].
  - intros H. by destruct (Hfwd H).
  - intros [[Hr Hk] | (r & Hr & Hlen & Hnin)].
    + unfold join_room. rewrite (rooms_get_missing _ _ Hr Hk).
      eexists _, _, _. split; [done |]. apply list_elem_of_here.
    + rewrite (join_room_full _ _ _ _ _ _ Hr Hlen Hnin).
      eexists _, _, _. split; [done |]. apply list_elem_of_here.
  - intros H. by destruct (Hfwd H).
Qed.

(** ** Names of uploaded files *)

Lemma all_digits_of_uint d : all_digits (NilEmpty.string_of_uint d) = true.
Proof. induction d; simpl; try done. Qed.

Lemma decimal_inj n m : decimal n = decimal m → n = m.
Proof.
  unfold decimal. intros H.
  assert (Some (N.to_uint n) = Some (N.to_uint m)) as Hu
    by (rewrite <- !NilEmpty.usu; by rewrite H).
  injection Hu as Hu.
  rewrite <- (DecimalN.Unsigned.of_to n), <- (DecimalN.Unsigned.of_to m).
  by rewrite Hu.
Qed.

Lemma append_cons c (s t : string) : String c s ++ t = String c (s ++ t).
Proof. reflexivity. Qed.

Lemma append_empty (s : string) : "" ++ s = s.
Proof. reflexivity. Qed.

Lemma split_at_digits x : ∀ y s t,
  all_digits x = true → all_digits y = true →
  stops_digits s → stops_digits t →
  x ++ s = y ++ t → x = y ∧ s = t.
Proof.
  induction x as [| c x IH]; intros y s t Hx Hy Hs Ht Heq.
  - destruct y as [| c' y]; [done |].
    rewrite append_cons, append_empty in Heq. subst s. simpl in *.
    apply andb_true_iff in Hy as [Hc _]. congruence.
  - destruct y as [| c' y].
    + rewrite append_cons, append_empty in Heq. subst t. simpl in *.
      apply andb_true_iff in Hx as [Hc _]. congruence.
    + rewrite !append_cons in Heq. simpl in *.
      injection Heq as -> Heq.
      apply andb_true_iff in Hx as [_ Hx]. apply andb_true_iff in Hy as [_ Hy].
      destruct (IH y s t Hx Hy Hs Ht Heq) as [-> ->]. done.
Qed.

Lemma extension_stops_digits ext : extension ext → stops_digits ext.
Proof. intros [-> | [rest ->]]; done. Qed.

(** X21: two uploads are stored under the same name only if they were
    named at the same clock reading, with the same random draw and the same
    extension; any difference in one of the three gives different names. *)
Theorem upload_filename_inj now rnd ext now' rnd' ext' :
  extension ext → extension ext' →
  upload_filename now rnd ext = upload_filename now' rnd' ext' →
  now = now' ∧ rnd = rnd' ∧ ext = ext'.
Proof.
  intros He He' Heq. unfold upload_filename in Heq.
  destruct (split_at_digits (decimal now) (decimal now')
              ("-" ++ decimal rnd ++ ext) ("-" ++ decimal rnd' ++ ext'))
    as [Hn Hrest]; try done; try apply all_digits_of_uint.
  rewrite !append_cons, !append_empty in Hrest. injection Hrest as Hrest.
  destruct (split_at_digits (decimal rnd) (decimal rnd') ext ext')
    as [Hr Hext]; try done; try apply all_digits_of_uint;
    try by apply extension_stops_digits.
  split_and!; [by apply decimal_inj | by apply decimal_inj | done].
Qed.

Lemma upload_filename_inj_witness :
  extension ".mp4" ∧
  upload_filename 1700000000000 123456789 ".mp4" =
    "1700000000000-123456789.mp4" ∧
  (1700000000000 = 1700000000000 ∧ 123456789 = 123456789 ∧ ".mp4" = ".mp4")%N.
Proof.
  assert (extension ".mp4") as He by (right; by eexists).
  split; [exact He |]. split; [vm_compute; reflexivity |].
  apply (upload_filename_inj 1700000000000 123456789 ".mp4"
           1700000000000 123456789 ".mp4" He He).
  reflexivity.
Defined.
